(** * web-search-mcp: text utilities and HTTP gateway

    A shallow embedding of [src/utils.ts] (text cleaning, previews, domain
    normalisation, PDF detection, site-scoped queries) and of the request
    validation and response formatting of [src/api.ts], with the properties
    the specification states about them. *)

From Stdlib Require Import List NArith ZArith QArith Qround Bool Ascii String Lia.
Import ListNotations.

Set Warnings "-register-all".

(* ================================================================== *)
(** * The JavaScript values the program computes with *)
(* ================================================================== *)

Module JS.

(** A JavaScript string is a sequence of UTF-16 code units. *)
Definition code_unit := N.
Definition jsstring := list code_unit.

(** ASCII literals. *)
Definition str (s : string) : jsstring :=
  List.map N_of_ascii (list_ascii_of_string s).

(** A JavaScript number: NaN, an infinity, or a finite value.  Every finite
    double is a rational, so a statement for all [Fin q] covers all finite
    doubles; the program only compares, truncates and tests these numbers. *)
Inductive number :=
| NaN
| PosInf
| NegInf
| Fin (q : Q).

Definition of_Z (z : Z) : number := Fin (inject_Z z).
Definition of_nat (n : nat) : number := of_Z (Z.of_nat n).

Definition isNaN (n : number) : bool :=
  match n with NaN => true | _ => false end.

(** [a < b] *)
Definition num_lt (a b : number) : bool :=
  match a, b with
  | NaN, _ | _, NaN => false
  | PosInf, _ => false
  | _, NegInf => false
  | NegInf, _ => true
  | _, PosInf => true
  | Fin p, Fin q => negb (Qle_bool q p)
  end.

(** [a > b] *)
Definition num_gt (a b : number) : bool := num_lt b a.

(** [a === b] on numbers *)
Definition num_eq (a b : number) : bool :=
  match a, b with
  | PosInf, PosInf => true
  | NegInf, NegInf => true
  | Fin p, Fin q => Qeq_bool p q
  | _, _ => false
  end.

(** ToBoolean on a number: everything but NaN and zero. *)
Definition num_truthy (n : number) : bool :=
  match n with
  | NaN => false
  | Fin q => negb (Qeq_bool q 0)
  | _ => true
  end.

(** ToBoolean on a string: non-empty. *)
Definition str_truthy (s : jsstring) : bool :=
  match s with [] => false | _ => true end.

(** ToIntegerOrInfinity *)
Inductive integerOrInf :=
| MinusInfinity
| Integer (z : Z)
| PlusInfinity.

Definition Qtrunc (q : Q) : Z :=
  if Qle_bool 0 q then Qfloor q else Qceiling q.

Definition ToIntegerOrInfinity (n : number) : integerOrInf :=
  match n with
  | NaN => Integer 0
  | PosInf => PlusInfinity
  | NegInf => MinusInfinity
  | Fin q => Integer (Qtrunc q)
  end.

(** [min(max(i, 0), len)] *)
Definition clampIndex (i : integerOrInf) (len : nat) : nat :=
  match i with
  | MinusInfinity => 0
  | Integer z => Nat.min (Z.to_nat z) len
  | PlusInfinity => len
  end.

(** String.prototype.substring(start, end) *)
Definition substring (s : jsstring) (start stop : number) : jsstring :=
  let len := List.length s in
  let finalStart := clampIndex (ToIntegerOrInfinity start) len in
  let finalEnd := clampIndex (ToIntegerOrInfinity stop) len in
  let from := Nat.min finalStart finalEnd in
  let to := Nat.max finalStart finalEnd in
  firstn (to - from) (skipn from s).

(** What [\s] matches and what [trim] removes: WhiteSpace and
    LineTerminator code units. *)
Definition is_ws (c : code_unit) : bool :=
  ((c =? 0x9) || (c =? 0xA) || (c =? 0xB) || (c =? 0xC) || (c =? 0xD)
   || (c =? 0x20) || (c =? 0xA0) || (c =? 0x1680)
   || ((0x2000 <=? c) && (c <=? 0x200A))
   || (c =? 0x2028) || (c =? 0x2029) || (c =? 0x202F) || (c =? 0x205F)
   || (c =? 0x3000) || (c =? 0xFEFF))%N.

Definition SPACE : code_unit := 0x20%N.
Definition NEWLINE : code_unit := 0xA%N.

Fixpoint dropWhile (p : code_unit -> bool) (s : jsstring) : jsstring :=
  match s with
  | [] => []
  | c :: r => if p c then dropWhile p r else s
  end.

Definition trimStart (s : jsstring) : jsstring := dropWhile is_ws s.
Definition trimEnd (s : jsstring) : jsstring := rev (dropWhile is_ws (rev s)).
Definition trim (s : jsstring) : jsstring := trimEnd (trimStart s).

Fixpoint str_eqb (a b : jsstring) : bool :=
  match a, b with
  | [], [] => true
  | x :: a', y :: b' => (x =? y)%N && str_eqb a' b'
  | _, _ => false
  end.

(** [s.startsWith(p)], and the rest of [s] after [p] when it does. *)
Fixpoint stripPrefix (p s : jsstring) : option jsstring :=
  match p, s with
  | [], _ => Some s
  | x :: p', y :: s' => if (x =? y)%N then stripPrefix p' s' else None
  | _ :: _, [] => None
  end.

Definition startsWith (s p : jsstring) : bool :=
  match stripPrefix p s with Some _ => true | None => false end.

(** [s.endsWith(x)] *)
Definition endsWith (s x : jsstring) : bool :=
  (List.length x <=? List.length s)%nat
  && str_eqb (skipn (List.length s - List.length x) s) x.

(** [s.split(sep)] for a separator of one code unit.  The array always has
    at least one element. *)
Fixpoint split (sep : code_unit) (s : jsstring) : list jsstring :=
  match s with
  | [] => [[]]
  | c :: r =>
      if (c =? sep)%N then [] :: split sep r
      else match split sep r with
           | x :: xs => (c :: x) :: xs
           | [] => [[c]]
           end
  end.

(** [a.join(sep)] *)
Fixpoint join (sep : jsstring) (a : list jsstring) : jsstring :=
  match a with
  | [] => []
  | [x] => x
  | x :: xs => x ++ sep ++ join sep xs
  end.

(** The values a parsed JSON body can hold in a field. *)
Inductive value :=
| VUndefined
| VNull
| VBool (b : bool)
| VNumber (n : number)
| VString (s : jsstring)
| VArray (elems : list value)
| VObject.

Inductive type_tag :=
| TUndefined | TObject | TBoolean | TNumber | TString.

Definition typeof (v : value) : type_tag :=
  match v with
  | VUndefined => TUndefined
  | VNull => TObject
  | VBool _ => TBoolean
  | VNumber _ => TNumber
  | VString _ => TString
  | VArray _ => TObject
  | VObject => TObject
  end.

(** ToBoolean *)
Definition truthy (v : value) : bool :=
  match v with
  | VUndefined | VNull => false
  | VBool b => b
  | VNumber n => num_truthy n
  | VString s => str_truthy s
  | VArray _ | VObject => true
  end.

(** A destructuring default [{ f = d } = body]: used when the field is
    undefined. *)
Definition withDefault (d : value) (v : value) : value :=
  match v with VUndefined => d | _ => v end.

Definition is_digit (c : code_unit) : bool := ((0x30 <=? c) && (c <=? 0x39))%N.

Fixpoint digitsValue (acc : Z) (s : jsstring) : Z :=
  match s with
  | [] => acc
  | c :: r =>
      if is_digit c then digitsValue (10 * acc + (Z.of_N c - 0x30)) r else acc
  end.

(** [parseInt(s, 10)]: skip leading white space, read an optional sign, then
    the longest run of decimal digits; NaN when there is none.  The value is
    the exact integer (the rounding of very long digit runs to a double is
    left out: the program only compares the result with string lengths and
    small constants). *)
Definition parseInt10 (s : jsstring) : number :=
  let t := trimStart s in
  let '(neg, t') :=
    match t with
    | c :: r => if (c =? 0x2D)%N then (true, r)
                else if (c =? 0x2B)%N then (false, r)
                else (false, t)
    | [] => (false, t)
    end in
  match t' with
  | c :: _ =>
      if is_digit c
      then let v := digitsValue 0 t' in of_Z (if neg then - v else v)
      else NaN
  | [] => NaN
  end.

(** [s.split(/\s+/)]: the pieces of [s] between its maximal runs of white
    space; a run at either end leaves an empty piece there.  [inRun] says
    that the previous code unit was white space. *)
Fixpoint splitWs_from (inRun : bool) (s : jsstring) : list jsstring :=
  match s with
  | [] => [[]]
  | c :: r =>
      if is_ws c
      then (if inRun then splitWs_from true r else [] :: splitWs_from true r)
      else match splitWs_from false r with
           | x :: xs => (c :: x) :: xs
           | [] => [[c]]
           end
  end.

Definition splitWs (s : jsstring) : list jsstring := splitWs_from false s.

(** [a <= b] *)
Definition num_le (a b : number) : bool :=
  match a, b with
  | NaN, _ | _, NaN => false
  | _, _ => negb (num_lt b a)
  end.

(** [Math.min(a, b)] *)
Definition Math_min (a b : number) : number :=
  match a, b with
  | NaN, _ | _, NaN => NaN
  | _, _ => if num_lt b a then b else a
  end.

Section Doubles.

(** Arithmetic on doubles rounds its exact result: [fl x] is the double
    nearest to the real [x], an infinity beyond the range. *)
Variable fl : Q -> number.

Definition flipSign (n : number) : number :=
  match n with
  | PosInf => NegInf
  | NegInf => PosInf
  | _ => n
  end.

(** An infinity times a finite [q]. *)
Definition scaleInf (inf : number) (q : Q) : number :=
  if Qeq_bool q 0 then NaN
  else if Qle_bool 0 q then inf else flipSign inf.

(** [a + b] *)
Definition num_add (a b : number) : number :=
  match a, b with
  | NaN, _ | _, NaN => NaN
  | PosInf, NegInf | NegInf, PosInf => NaN
  | PosInf, _ | _, PosInf => PosInf
  | NegInf, _ | _, NegInf => NegInf
  | Fin p, Fin q => fl (p + q)
  end.

(** [a * b] *)
Definition num_mul (a b : number) : number :=
  match a, b with
  | NaN, _ | _, NaN => NaN
  | Fin p, Fin q => fl (p * q)
  | Fin p, inf => scaleInf inf p
  | inf, Fin q => scaleInf inf q
  | PosInf, PosInf | NegInf, NegInf => PosInf
  | PosInf, NegInf | NegInf, PosInf => NegInf
  end.

End Doubles.

(** [a.slice(0, stop)] on an array. *)
Definition slice0 {A : Type} (a : list A) (stop : number) : list A :=
  let len := List.length a in
  let final :=
    match ToIntegerOrInfinity stop with
    | MinusInfinity => 0%nat
    | Integer relativeEnd =>
        if (relativeEnd <? 0)%Z
        then Z.to_nat (Z.max (Z.of_nat len + relativeEnd) 0)
        else Nat.min (Z.to_nat relativeEnd) len
    | PlusInfinity => len
    end in
  firstn final a.

End JS.
Export JS.

(* ================================================================== *)
(** * src/utils.ts *)
(* ================================================================== *)

Module Utils.

(** ** Text cleaning *)

(** [text.replace(/\s+/g, ' ')]: every maximal run of white space becomes
    one space.  [inRun] says that the previous code unit was white space,
    that is, the space for the current run is already written. *)
Fixpoint replaceWsRuns_from (inRun : bool) (s : jsstring) : jsstring :=
  match s with
  | [] => []
  | c :: r =>
      if is_ws c
      then (if inRun then replaceWsRuns_from true r
            else SPACE :: replaceWsRuns_from true r)
      else c :: replaceWsRuns_from false r
  end.

Definition replaceWsRuns (s : jsstring) : jsstring :=
  replaceWsRuns_from false s.

(** A match of [\s*\n] at the head of [r], taken greedily: what follows the
    last newline of the white-space run that [r] starts with. *)
Fixpoint afterLastNewline (r : jsstring) : option jsstring :=
  match r with
  | [] => None
  | c :: r' =>
      if is_ws c
      then match afterLastNewline r' with
           | Some t => Some t
           | None => if (c =? NEWLINE)%N then Some r' else None
           end
      else None
  end.

(** [s.replace(/\n\s*\n/g, '\n')], scanning left to right; the scan
    resumes after each match. *)
Fixpoint replaceBlankLines_go (fuel : nat) (s : jsstring) : jsstring :=
  match fuel with
  | O => []
  | S fuel' =>
      match s with
      | [] => []
      | c :: r =>
          if (c =? NEWLINE)%N
          then match afterLastNewline r with
               | Some t => NEWLINE :: replaceBlankLines_go fuel' t
               | None => c :: replaceBlankLines_go fuel' r
               end
          else c :: replaceBlankLines_go fuel' r
      end
  end.

Definition replaceBlankLines (s : jsstring) : jsstring :=
  replaceBlankLines_go (List.length s) s.

Definition cleanText_defaultMaxLength : number := of_Z 10000.

Definition cleanText (text : jsstring) (maxLength : number) : jsstring :=
  substring (trim (replaceBlankLines (replaceWsRuns text))) (of_Z 0) maxLength.

Definition getContentPreview_defaultMaxLength : number := of_Z 500.

Definition ELLIPSIS : jsstring := str "...".

Definition getContentPreview (text : jsstring) (maxLength : number) : jsstring :=
  let cleaned := cleanText text maxLength in
  if num_eq (of_nat (List.length cleaned)) maxLength
  then cleaned ++ ELLIPSIS
  else cleaned.

Definition getWordCount (text : jsstring) : nat :=
  List.length
    (filter (fun word => (0 <? List.length word)%nat) (splitWs (trim text))).

Definition sanitizeQuery (query : jsstring) : jsstring :=
  substring (trim query) (of_Z 0) (of_Z 1000).

(** ** Domains and URLs *)

(** What [new URL(s)] exposes of a parsed URL. *)
Record URL := {
  protocol : jsstring;
  hostname : jsstring;
  pathname : jsstring
}.

Section Runtime.

(** The two platform functions the utilities call and this development
    does not define: [String.prototype.toLowerCase] (the Unicode case
    tables) and the [URL] constructor ([None] when it throws). *)
Variable toLowerCase : jsstring -> jsstring.
Variable parseURL : jsstring -> option URL.

Definition isPdfUrl (url : jsstring) : bool :=
  match parseURL url with
  | Some parsed => endsWith (toLowerCase (pathname parsed)) (str ".pdf")
  | None => endsWith (toLowerCase url) (str ".pdf")
  end.

(** A match of [^https?:\/\/] at the start of [s]: what follows it. *)
Definition matchProtocol (s : jsstring) : option jsstring :=
  match stripPrefix (str "http") s with
  | None => None
  | Some r =>
      let withS :=
        match r with
        | c :: r' => if (c =? 0x73)%N then stripPrefix (str "://") r' else None
        | [] => None
        end in
      match withS with
      | Some t => Some t
      | None => stripPrefix (str "://") r
      end
  end.

(** [s.replace(/^https?:\/\//, '')] *)
Definition removeProtocol (s : jsstring) : jsstring :=
  match matchProtocol s with Some t => t | None => s end.

(** [s.replace(/^www\./, '')] *)
Definition removeWww (s : jsstring) : jsstring :=
  match stripPrefix (str "www.") s with Some t => t | None => s end.

(** [s.split(sep)[0]] *)
Definition splitFirst (sep : code_unit) (s : jsstring) : jsstring :=
  match split sep s with
  | x :: _ => x
  | [] => []
  end.

Definition SLASH : code_unit := 0x2F%N.
Definition COLON : code_unit := 0x3A%N.

Definition normalizeDomain (domain : jsstring) : jsstring :=
  let normalized := toLowerCase (trim domain) in
  let normalized := removeProtocol normalized in
  let normalized := removeWww normalized in
  let normalized := splitFirst SLASH normalized in
  let normalized := splitFirst COLON normalized in
  normalized.

Definition buildDomainFilteredQuery_defaultMax : number := of_Z 10.

Definition buildDomainFilteredQuery
    (query : jsstring) (domains : list jsstring) (maxDomainsInQuery : number)
    : jsstring :=
  if (List.length domains =? 0)%nat then query
  else
    let normalizedDomains :=
      filter (fun domain => (0 <? List.length domain)%nat)
             (List.map normalizeDomain domains) in
    if (List.length normalizedDomains =? 0)%nat then query
    else if num_gt (of_nat (List.length normalizedDomains)) maxDomainsInQuery
    then query
    else if (List.length normalizedDomains =? 1)%nat
    then query ++ str " site:" ++ nth 0 normalizedDomains []
    else
      let siteOperators :=
        join (str " OR ")
             (List.map (fun domain => str "site:" ++ domain) normalizedDomains) in
      query ++ str " (" ++ siteOperators ++ str ")".

Definition validateUrl (url : jsstring) : bool :=
  match parseURL url with
  | Some parsed =>
      str_eqb (protocol parsed) (str "http:")
      || str_eqb (protocol parsed) (str "https:")
  | None => false
  end.

Definition extractDomainFromUrl (url : jsstring) : jsstring :=
  match parseURL url with
  | Some urlObj => normalizeDomain (hostname urlObj)
  | None => normalizeDomain url
  end.

Definition urlMatchesDomain (url : jsstring) (allowedDomains : list jsstring)
    : bool :=
  if (List.length allowedDomains =? 0)%nat then true
  else
    let urlDomain := extractDomainFromUrl url in
    existsb (fun allowed => str_eqb allowed urlDomain) allowedDomains.

(** *** The specification's wording of domain normalisation

    "lowercase; strip a leading http:// or https://; strip a leading www.;
    cut at the first / (drop path) and first : (drop port)". *)

Definition stripLeading (p s : jsstring) : jsstring :=
  if startsWith s p then skipn (List.length p) s else s.

Fixpoint cutAtFirst (c : code_unit) (s : jsstring) : jsstring :=
  match s with
  | [] => []
  | x :: r => if (x =? c)%N then [] else x :: cutAtFirst c r
  end.

Definition normalizeDomain_spec (domain : jsstring) : jsstring :=
  let lowered := toLowerCase domain in
  let noProtocol :=
    if startsWith lowered (str "http://") then stripLeading (str "http://") lowered
    else stripLeading (str "https://") lowered in
  let noWww := stripLeading (str "www.") noProtocol in
  cutAtFirst COLON (cutAtFirst SLASH noWww).

End Runtime.

End Utils.

(* ================================================================== *)
(** * src/types.ts *)
(* ================================================================== *)

Inductive FetchStatus := FetchSuccess | FetchError | FetchTimeout.

Definition FetchStatus_eqb (a b : FetchStatus) : bool :=
  match a, b with
  | FetchSuccess, FetchSuccess | FetchError, FetchError
  | FetchTimeout, FetchTimeout => true
  | _, _ => false
  end.

Module SearchResult.
Record t := {
  title : jsstring;
  url : jsstring;
  description : jsstring;
  fullContent : jsstring;
  contentPreview : jsstring;
  wordCount : number;
  timestamp : jsstring;
  fetchStatus : FetchStatus;
  error : option jsstring
}.
End SearchResult.

Module WebSearchToolInput.
Record t := {
  query : jsstring;
  limit : value;
  includeContent : value;
  maxContentLength : option number;
  domains : option (list jsstring)
}.
End WebSearchToolInput.

Module WebSearchToolOutput.
Record t := {
  results : list SearchResult.t;
  total_results : number;
  search_time_ms : number;
  query : jsstring;
  status : option jsstring
}.
End WebSearchToolOutput.

Module ContentExtractionOptions.
Record t := {
  url : jsstring;
  maxContentLength : option number
}.
End ContentExtractionOptions.

Module SearchOptions.
Record t := {
  query : jsstring;
  numResults : option number;
  domains : option (list jsstring)
}.
End SearchOptions.

Module SearchResultWithMetadata.
Record t := {
  results : list SearchResult.t;
  engine : jsstring
}.
End SearchResultWithMetadata.

(* ================================================================== *)
(** * src/api.ts *)
(* ================================================================== *)

Module Api.

(** The fields a route reads from [req.body]; an absent field is
    [VUndefined]. *)
Module Body.
Record t := {
  query : value;
  limit : value;
  includeContent : value;
  maxContentLength : value;
  domains : value;
  url : value
}.
(** The same body with another [maxContentLength] field. *)
Definition withMaxContentLength (v : value) (b : t) : t :=
  {| query := query b; limit := limit b; includeContent := includeContent b;
     maxContentLength := v; domains := domains b; url := url b |}.
End Body.

(** One record of the [results] array of a /api/search response.  The
    optional fields are the ones the route assigns conditionally. *)
Module Formatted.
Record t := {
  title : jsstring;
  url : jsstring;
  description : jsstring;
  timestamp : jsstring;
  fetchStatus : FetchStatus;
  fullContent : option jsstring;
  contentTruncated : option bool;
  originalLength : option nat;
  wordCount : option number;
  contentPreview : option jsstring;
  error : option jsstring
}.
End Formatted.

(** Validation either answers 400 with a message or goes on. *)
Inductive checked (A : Type) :=
| BadRequest (message : jsstring)
| Valid (a : A).
Arguments BadRequest {A} message.
Arguments Valid {A} a.

Definition bind {A B} (c : checked A) (k : A -> checked B) : checked B :=
  match c with
  | BadRequest m => BadRequest m
  | Valid a => k a
  end.

Notation "x <- c ;; k" := (bind c (fun x => k))
  (at level 61, c at next level, right associativity).

(** [typeof v === 'string' ? parseInt(v, 10) : v] *)
Definition parseIfString (v : value) : value :=
  match v with
  | VString s => VNumber (parseInt10 s)
  | _ => v
  end.

(** [!query || typeof query !== 'string'] rejects; the same test guards
    [url] in /api/content. *)
Definition validateRequiredString (what : jsstring) (v : value)
    : checked jsstring :=
  match v with
  | VString s =>
      if str_truthy s then Valid s
      else BadRequest (what ++ str " is required and must be a string")
  | _ => BadRequest (what ++ str " is required and must be a string")
  end.

(** api.ts 76-86 and, with the same text, 199-209. *)
Definition validateLimit (limit : value) : checked value :=
  match limit with
  | VUndefined => Valid limit
  | _ =>
      match parseIfString limit with
      | VNumber limitValue =>
          if isNaN limitValue || num_lt limitValue (of_Z 1)
             || num_gt limitValue (of_Z 10)
          then BadRequest (str "limit must be a number between 1 and 10")
          else Valid (VNumber limitValue)
      | _ => BadRequest (str "limit must be a number between 1 and 10")
      end
  end.

(** api.ts 99-109 and, with the same text, 295-305. *)
Definition validateMaxContentLength (maxContentLength : value)
    : checked (option number) :=
  match maxContentLength with
  | VUndefined => Valid None
  | _ =>
      match parseIfString maxContentLength with
      | VNumber maxLengthValue =>
          if isNaN maxLengthValue || num_lt maxLengthValue (of_Z 0)
          then BadRequest (str "maxContentLength must be a non-negative number")
          else Valid (if num_eq maxLengthValue (of_Z 0) then None
                      else Some maxLengthValue)
      | _ => BadRequest (str "maxContentLength must be a non-negative number")
      end
  end.

(** api.ts 112-124 and 212-224. *)
Definition validateDomains (domains : value) : checked (option (list jsstring)) :=
  match domains with
  | VUndefined => Valid None
  | VArray elems =>
      let validatedDomains :=
        flat_map (fun d => match d with VString s => [s] | _ => [] end) elems in
      Valid (if (List.length validatedDomains =? 0)%nat then None
             else Some validatedDomains)
  | _ => BadRequest (str "domains must be an array of strings")
  end.

(** [validatedMaxContentLength && validatedMaxContentLength > 0 &&
    content.length > validatedMaxContentLength], as the value JavaScript
    gives the chain. *)
Definition overLimit (validatedMaxContentLength : option number) (len : nat)
    : value :=
  match validatedMaxContentLength with
  | None => VUndefined
  | Some m =>
      if num_truthy m
      then VBool (num_gt m (of_Z 0) && num_gt (of_nat len) m)
      else VNumber m
  end.

(** [content.substring(0, validatedMaxContentLength)]; with an undefined
    end [substring] returns the whole string. *)
Definition substringTo (content : jsstring)
    (validatedMaxContentLength : option number) : jsstring :=
  match validatedMaxContentLength with
  | Some m => substring content (of_Z 0) m
  | None => content
  end.

(** Assignments to the fields of [formattedResult]. *)
Module Assign.
Definition fullContent (v : jsstring) (f : Formatted.t) : Formatted.t :=
  {| Formatted.title := Formatted.title f;
     Formatted.url := Formatted.url f;
     Formatted.description := Formatted.description f;
     Formatted.timestamp := Formatted.timestamp f;
     Formatted.fetchStatus := Formatted.fetchStatus f;
     Formatted.fullContent := Some v;
     Formatted.contentTruncated := Formatted.contentTruncated f;
     Formatted.originalLength := Formatted.originalLength f;
     Formatted.wordCount := Formatted.wordCount f;
     Formatted.contentPreview := Formatted.contentPreview f;
     Formatted.error := Formatted.error f |}.
Definition contentTruncated (v : bool) (f : Formatted.t) : Formatted.t :=
  {| Formatted.title := Formatted.title f;
     Formatted.url := Formatted.url f;
     Formatted.description := Formatted.description f;
     Formatted.timestamp := Formatted.timestamp f;
     Formatted.fetchStatus := Formatted.fetchStatus f;
     Formatted.fullContent := Formatted.fullContent f;
     Formatted.contentTruncated := Some v;
     Formatted.originalLength := Formatted.originalLength f;
     Formatted.wordCount := Formatted.wordCount f;
     Formatted.contentPreview := Formatted.contentPreview f;
     Formatted.error := Formatted.error f |}.
Definition originalLength (v : nat) (f : Formatted.t) : Formatted.t :=
  {| Formatted.title := Formatted.title f;
     Formatted.url := Formatted.url f;
     Formatted.description := Formatted.description f;
     Formatted.timestamp := Formatted.timestamp f;
     Formatted.fetchStatus := Formatted.fetchStatus f;
     Formatted.fullContent := Formatted.fullContent f;
     Formatted.contentTruncated := Formatted.contentTruncated f;
     Formatted.originalLength := Some v;
     Formatted.wordCount := Formatted.wordCount f;
     Formatted.contentPreview := Formatted.contentPreview f;
     Formatted.error := Formatted.error f |}.
Definition wordCount (v : number) (f : Formatted.t) : Formatted.t :=
  {| Formatted.title := Formatted.title f;
     Formatted.url := Formatted.url f;
     Formatted.description := Formatted.description f;
     Formatted.timestamp := Formatted.timestamp f;
     Formatted.fetchStatus := Formatted.fetchStatus f;
     Formatted.fullContent := Formatted.fullContent f;
     Formatted.contentTruncated := Formatted.contentTruncated f;
     Formatted.originalLength := Formatted.originalLength f;
     Formatted.wordCount := Some v;
     Formatted.contentPreview := Formatted.contentPreview f;
     Formatted.error := Formatted.error f |}.
Definition contentPreview (v : jsstring) (f : Formatted.t) : Formatted.t :=
  {| Formatted.title := Formatted.title f;
     Formatted.url := Formatted.url f;
     Formatted.description := Formatted.description f;
     Formatted.timestamp := Formatted.timestamp f;
     Formatted.fetchStatus := Formatted.fetchStatus f;
     Formatted.fullContent := Formatted.fullContent f;
     Formatted.contentTruncated := Formatted.contentTruncated f;
     Formatted.originalLength := Formatted.originalLength f;
     Formatted.wordCount := Formatted.wordCount f;
     Formatted.contentPreview := Some v;
     Formatted.error := Formatted.error f |}.
Definition error (v : jsstring) (f : Formatted.t) : Formatted.t :=
  {| Formatted.title := Formatted.title f;
     Formatted.url := Formatted.url f;
     Formatted.description := Formatted.description f;
     Formatted.timestamp := Formatted.timestamp f;
     Formatted.fetchStatus := Formatted.fetchStatus f;
     Formatted.fullContent := Formatted.fullContent f;
     Formatted.contentTruncated := Formatted.contentTruncated f;
     Formatted.originalLength := Formatted.originalLength f;
     Formatted.wordCount := Formatted.wordCount f;
     Formatted.contentPreview := Formatted.contentPreview f;
     Formatted.error := Some v |}.
End Assign.

(** The callback of [result.results.map], api.ts 145-174. *)
Definition formatSearchResult (validatedMaxContentLength : option number)
    (searchResult : SearchResult.t) : Formatted.t :=
  let formattedResult :=
  {| Formatted.title := SearchResult.title searchResult;
     Formatted.url := SearchResult.url searchResult;
     Formatted.description := SearchResult.description searchResult;
     Formatted.timestamp := SearchResult.timestamp searchResult;
     Formatted.fetchStatus := SearchResult.fetchStatus searchResult;
     Formatted.fullContent := None;
     Formatted.contentTruncated := None;
     Formatted.originalLength := None;
     Formatted.wordCount := None;
     Formatted.contentPreview := None;
     Formatted.error := None |} in
  let formattedResult :=
    if str_truthy (SearchResult.fullContent searchResult)
       && str_truthy (trim (SearchResult.fullContent searchResult))
    then
      let content := SearchResult.fullContent searchResult in
      let formattedResult :=
        if truthy (overLimit validatedMaxContentLength (List.length content))
        then
          let content := substringTo content validatedMaxContentLength in
          Assign.originalLength
            (List.length (SearchResult.fullContent searchResult))
            (Assign.contentTruncated true
               (Assign.fullContent content formattedResult))
        else Assign.fullContent content formattedResult in
      Assign.wordCount (SearchResult.wordCount searchResult) formattedResult
    else if str_truthy (SearchResult.contentPreview searchResult)
            && str_truthy (trim (SearchResult.contentPreview searchResult))
    then Assign.contentPreview (SearchResult.contentPreview searchResult)
           formattedResult
    else formattedResult in
  match SearchResult.error searchResult with
  | Some e =>
      if FetchStatus_eqb (SearchResult.fetchStatus searchResult) FetchError
         && str_truthy e
      then Assign.error e formattedResult
      else formattedResult
  | None => formattedResult
  end.

(** The body of a /api/content answer, without its [wordCount] and
    [timestamp]. *)
Module ContentResponse.
Record t := {
  url : jsstring;
  title : jsstring;
  content : jsstring;
  contentTruncated : value;
  originalLength : nat
}.
End ContentResponse.

Inductive response (A : Type) :=
| Status400 (message : jsstring)
| Status500 (message : jsstring)
| Status200 (body : A).
Arguments Status400 {A} message.
Arguments Status500 {A} message.
Arguments Status200 {A} body.

Module SearchResponse.
Record t := {
  query : jsstring;
  total_results : number;
  search_time_ms : number;
  status : option jsstring;
  results : list Formatted.t
}.
End SearchResponse.

(** What a call can throw: an [Error] with its message, or an object
    that has no message. *)
Inductive thrown :=
| ThrownError (message : jsstring)
| ThrownOther.

(** The message of a 500 answer, api.ts 341-348:
    [err.message || 'An unexpected error occurred']. *)
Definition errorMessage (err : thrown) : jsstring :=
  match err with
  | ThrownError message =>
      if str_truthy message then message
      else str "An unexpected error occurred"
  | ThrownOther => str "An unexpected error occurred"
  end.

Section Routes.

Variable toLowerCase : jsstring -> jsstring.
Variable parseURL : jsstring -> option Utils.URL.

(** What the routes call and this development leaves open: the search
    with content extraction behind [handleWebSearch], the search engine
    behind /api/search/summaries, and the single-page extractor.  Each
    either throws (left) or returns; what [handleWebSearch] throws is
    always an [Error], given here by its message. *)
Variable handleWebSearch :
  WebSearchToolInput.t -> jsstring + WebSearchToolOutput.t.
Variable searchSummaries :
  jsstring -> value -> option (list jsstring) -> thrown + list SearchResult.t.
Variable extractContent : ContentExtractionOptions.t -> thrown + jsstring.

(** [const { limit = 5 } = req.body] *)
Definition requestedLimit (body : Body.t) : value :=
  withDefault (VNumber (of_Z 5)) (Body.limit body).

(** api.ts 89-96 *)
Definition validateIncludeContent (includeContent : value) : value :=
  match includeContent with
  | VUndefined => includeContent
  | VString s => VBool (str_eqb (toLowerCase s) (str "true"))
  | _ => VBool (truthy includeContent)
  end.

(** The checks of POST /api/search, in the order the route makes them. *)
Definition validateSearch (body : Body.t) : checked WebSearchToolInput.t :=
  let limit := requestedLimit body in
  let includeContent := withDefault (VBool true) (Body.includeContent body) in
  query <- validateRequiredString (str "query") (Body.query body) ;;
  validatedLimit <- validateLimit limit ;;
  let validatedIncludeContent := validateIncludeContent includeContent in
  validatedMaxContentLength <-
    validateMaxContentLength (Body.maxContentLength body) ;;
  validatedDomains <- validateDomains (Body.domains body) ;;
  Valid {| WebSearchToolInput.query := query;
           WebSearchToolInput.limit := validatedLimit;
           WebSearchToolInput.includeContent := validatedIncludeContent;
           WebSearchToolInput.maxContentLength := validatedMaxContentLength;
           WebSearchToolInput.domains := validatedDomains |}.

(** POST /api/search *)
Definition apiSearch (body : Body.t) : response SearchResponse.t :=
  match validateSearch body with
  | BadRequest m => Status400 m
  | Valid validatedArgs =>
      match handleWebSearch validatedArgs with
      | inl message => Status500 (errorMessage (ThrownError message))
      | inr result =>
          Status200
            {| SearchResponse.query := WebSearchToolOutput.query result;
               SearchResponse.total_results :=
                 WebSearchToolOutput.total_results result;
               SearchResponse.search_time_ms :=
                 WebSearchToolOutput.search_time_ms result;
               SearchResponse.status := WebSearchToolOutput.status result;
               SearchResponse.results :=
                 List.map
                   (formatSearchResult
                      (WebSearchToolInput.maxContentLength validatedArgs))
                   (WebSearchToolOutput.results result) |}
      end
  end.

(** The checks of POST /api/search/summaries: query, count, domains. *)
Definition validateSummaries (body : Body.t)
    : checked (jsstring * value * option (list jsstring)) :=
  let limit := requestedLimit body in
  query <- validateRequiredString (str "query") (Body.query body) ;;
  validatedLimit <- validateLimit limit ;;
  validatedDomains <- validateDomains (Body.domains body) ;;
  Valid (query, validatedLimit, validatedDomains).

(** POST /api/search/summaries: the titles, URLs and descriptions of what
    the engine found for [numResults: validatedLimit]. *)
Definition apiSummaries (body : Body.t)
    : response (list (jsstring * jsstring * jsstring * jsstring)) :=
  match validateSummaries body with
  | BadRequest m => Status400 m
  | Valid (query, validatedLimit, validatedDomains) =>
      match searchSummaries query validatedLimit validatedDomains with
      | inl err => Status500 (errorMessage err)
      | inr results =>
          Status200
            (List.map (fun item => (SearchResult.title item,
                                    SearchResult.url item,
                                    SearchResult.description item,
                                    SearchResult.timestamp item)) results)
      end
  end.

(** The checks of POST /api/content. *)
Definition validateContent (body : Body.t) : checked ContentExtractionOptions.t :=
  url <- validateRequiredString (str "url") (Body.url body) ;;
  match parseURL url with
  | None => BadRequest (str "url must be a valid URL")
  | Some _ =>
      validatedMaxContentLength <-
        validateMaxContentLength (Body.maxContentLength body) ;;
      Valid {| ContentExtractionOptions.url := url;
               ContentExtractionOptions.maxContentLength :=
                 validatedMaxContentLength |}
  end.

(** The answer of /api/content to what the extractor returned, api.ts
    321-332. *)
Definition contentResponse (url : jsstring) (urlObj : Utils.URL)
    (validatedMaxContentLength : option number) (content : jsstring)
    : ContentResponse.t :=
  let over := overLimit validatedMaxContentLength (List.length content) in
  {| ContentResponse.url := url;
     ContentResponse.title := Utils.hostname urlObj ++ Utils.pathname urlObj;
     ContentResponse.content :=
       if truthy over then substringTo content validatedMaxContentLength
       else content;
     ContentResponse.contentTruncated := over;
     ContentResponse.originalLength := List.length content |}.

(** POST /api/content *)
Definition apiContent (body : Body.t) : response ContentResponse.t :=
  match validateContent body with
  | BadRequest m => Status400 m
  | Valid options =>
      match extractContent options with
      | inl err => Status500 (errorMessage err)
      | inr content =>
          match parseURL (ContentExtractionOptions.url options) with
          | None => Status500 (str "Invalid URL")
          | Some urlObj =>
              Status200
                (contentResponse (ContentExtractionOptions.url options) urlObj
                   (ContentExtractionOptions.maxContentLength options) content)
          end
      end
  end.

End Routes.

(** api.ts 317:
    [content.split(/\s+/).filter((word) => word.length > 0).length] *)
Definition contentWordCount (content : jsstring) : nat :=
  List.length
    (filter (fun word => (0 <? List.length word)%nat) (splitWs content)).

(** ** handleWebSearch *)

(** What [handleWebSearch] reads of its input, at the types the
    [WebSearchToolInput] interface gives the fields. *)
Module HandlerInput.
Record t := {
  query : jsstring;
  limit : option number;
  includeContent : option bool;
  domains : option (list jsstring)
}.
End HandlerInput.

(** The validated arguments of a route at those types, when they have
    them. *)
Definition typedInput (args : WebSearchToolInput.t) : option HandlerInput.t :=
  match WebSearchToolInput.limit args, WebSearchToolInput.includeContent args with
  | (VUndefined | VNumber _) as l, (VUndefined | VBool _) as c =>
      Some {| HandlerInput.query := WebSearchToolInput.query args;
              HandlerInput.limit :=
                match l with VNumber n => Some n | _ => None end;
              HandlerInput.includeContent :=
                match c with VBool b => Some b | _ => None end;
              HandlerInput.domains := WebSearchToolInput.domains args |}
  | _, _ => None
  end.

(** [domains && domains.length > 0] *)
Definition hasDomains (domains : option (list jsstring)) : bool :=
  match domains with
  | Some l => (0 <? List.length l)%nat
  | None => false
  end.

Section Handler.

Variable fl : Q -> number.
Variable toLowerCase : jsstring -> jsstring.
Variable parseURL : jsstring -> option Utils.URL.

(** The collaborators of [handleWebSearch], which this development leaves
    open: the search engine, the content extractor, the conversion of a
    number to text in a template string, and the elapsed time read off the
    clock. *)
Variable search : SearchOptions.t -> thrown + SearchResultWithMetadata.t.
Variable extractContentForResults :
  list SearchResult.t -> number -> thrown + list SearchResult.t.
Variable numberToString : number -> jsstring.
Variable searchTime : number.

(** api.ts 371-373 *)
Definition searchLimit (limit : number) (includeContent : bool)
    (domains : option (list jsstring)) : number :=
  if includeContent
  then (if hasDomains domains then of_Z 10
        else Math_min (num_add fl (num_mul fl limit (of_Z 2)) (of_Z 2))
                      (of_Z 10))
  else (if hasDomains domains
        then Math_min (num_mul fl limit (of_Z 3)) (of_Z 10)
        else limit).

Definition countStatus (status : FetchStatus) (results : list SearchResult.t)
    : nat :=
  List.length
    (filter (fun r => FetchStatus_eqb (SearchResult.fetchStatus r) status)
            results).

(** The body of the [try] block, api.ts 367-419. *)
Definition handleWebSearch_try (input : HandlerInput.t)
    : thrown + WebSearchToolOutput.t :=
  let query := HandlerInput.query input in
  let limit :=
    match HandlerInput.limit input with Some n => n | None => of_Z 5 end in
  let includeContent :=
    match HandlerInput.includeContent input with
    | Some b => b
    | None => true
    end in
  let domains := HandlerInput.domains input in
  match search {| SearchOptions.query := query;
                  SearchOptions.numResults :=
                    Some (searchLimit limit includeContent domains);
                  SearchOptions.domains := domains |} with
  | inl e => inl e
  | inr searchResponse =>
      let searchResults := SearchResultWithMetadata.results searchResponse in
      let pdfCount :=
        List.length
          (filter (fun result =>
                     Utils.isPdfUrl toLowerCase parseURL
                       (SearchResult.url result))
                  searchResults) in
      let followedCount := (List.length searchResults - pdfCount)%nat in
      match (if includeContent
             then extractContentForResults searchResults limit
             else inr (slice0 searchResults limit)) with
      | inl e => inl e
      | inr enhancedResults =>
          let combinedStatus :=
            str "Search engine: "
            ++ SearchResultWithMetadata.engine searchResponse
            ++ str "; " ++ numberToString limit
            ++ str " result requested/"
            ++ numberToString (of_nat (List.length searchResults))
            ++ str " obtained; PDF: " ++ numberToString (of_nat pdfCount)
            ++ str "; " ++ numberToString (of_nat followedCount)
            ++ str " followed" in
          let combinedStatus :=
            if includeContent
            then combinedStatus
                 ++ str "; Successfully extracted: "
                 ++ numberToString
                      (of_nat (countStatus FetchSuccess enhancedResults))
                 ++ str "; Failed: "
                 ++ numberToString
                      (of_nat (countStatus FetchError enhancedResults))
                 ++ str "; Results: "
                 ++ numberToString (of_nat (List.length enhancedResults))
            else combinedStatus in
          inr {| WebSearchToolOutput.results := enhancedResults;
                 WebSearchToolOutput.total_results :=
                   of_nat (List.length enhancedResults);
                 WebSearchToolOutput.search_time_ms := searchTime;
                 WebSearchToolOutput.query := query;
                 WebSearchToolOutput.status := Some combinedStatus |}
      end
  end.

(** [handleWebSearch], api.ts 360-424: whatever the body throws is thrown
    again as an [Error] with the message "Web search failed: ...". *)
Definition handleWebSearch (input : HandlerInput.t)
    : jsstring + WebSearchToolOutput.t :=
  match handleWebSearch_try input with
  | inl (ThrownError message) => inl (str "Web search failed: " ++ message)
  | inl ThrownOther => inl (str "Web search failed: Unknown error")
  | inr output => inr output
  end.

End Handler.

End Api.

(* ================================================================== *)
(** * A reference runtime for ASCII text and plain URLs *)
(* ================================================================== *)

(** The properties below hold for every lowercasing function and every
    URL parser, or for those that behave as the platform's do on the
    inputs named.  [Basic] gives one such pair, so that the utilities can
    be run: lowercasing of the letters A-Z, which is what the platform
    does on ASCII text, and a parser that accepts the plain URLs
    [scheme://host/path] and rejects text without a scheme. *)
Module Basic.

Definition isAscii (c : code_unit) : bool := (c <? 0x80)%N.

Definition lowerUnit (c : code_unit) : code_unit :=
  if ((0x41 <=? c) && (c <=? 0x5A))%N then (c + 0x20)%N else c.

Definition toLowerCase (s : jsstring) : jsstring := List.map lowerUnit s.

Definition isAlpha (c : code_unit) : bool :=
  (((0x41 <=? c) && (c <=? 0x5A)) || ((0x61 <=? c) && (c <=? 0x7A)))%N.

Definition isSchemeUnit (c : code_unit) : bool :=
  (isAlpha c || is_digit c || (c =? 0x2B) || (c =? 0x2D) || (c =? 0x2E))%N.

(** [Some (scheme, rest)] when [s] is [scheme ++ ":" ++ rest]. *)
Fixpoint splitScheme (s : jsstring) : option (jsstring * jsstring) :=
  match s with
  | [] => None
  | c :: r =>
      if (c =? Utils.COLON)%N then Some ([], r)
      else if isSchemeUnit c
      then match splitScheme r with
           | Some (scheme, rest) => Some (c :: scheme, rest)
           | None => None
           end
      else None
  end.

Definition parseURL (s : jsstring) : option Utils.URL :=
  match splitScheme s with
  | Some (c :: scheme, rest) =>
      if isAlpha c
      then match stripPrefix (str "//") rest with
           | Some r =>
               let host := Utils.cutAtFirst Utils.SLASH r in
               let path := skipn (List.length host) r in
               match host with
               | [] => None
               | _ =>
                   Some {| Utils.protocol :=
                             toLowerCase (c :: scheme) ++ [Utils.COLON];
                           Utils.hostname := toLowerCase host;
                           Utils.pathname :=
                             match path with
                             | [] => [Utils.SLASH]
                             | _ => path
                             end |}
               end
           | None => None
           end
      else None
  | _ => None
  end.

(** A search that found one page and extracted its text, an extractor
    that returns a page text, and request bodies to send them. *)
Definition page (fullContent : jsstring) : SearchResult.t :=
  {| SearchResult.title := str "Report";
     SearchResult.url := str "https://x.com/report";
     SearchResult.description := str "A report";
     SearchResult.fullContent := fullContent;
     SearchResult.contentPreview := [];
     SearchResult.wordCount := of_Z 1;
     SearchResult.timestamp := str "2024-01-01T00:00:00.000Z";
     SearchResult.fetchStatus := FetchSuccess;
     SearchResult.error := None |}.

Definition handleWebSearch (input : WebSearchToolInput.t)
    : jsstring + WebSearchToolOutput.t :=
  inr {| WebSearchToolOutput.results := [page (str "abc")];
         WebSearchToolOutput.total_results := of_Z 1;
         WebSearchToolOutput.search_time_ms := of_Z 0;
         WebSearchToolOutput.query := WebSearchToolInput.query input;
         WebSearchToolOutput.status := None |}.

Definition extractContent (options : ContentExtractionOptions.t)
    : Api.thrown + jsstring :=
  inr (str "abc").

Definition request (limit maxContentLength : value) : Api.Body.t :=
  {| Api.Body.query := VString (str "cats");
     Api.Body.limit := limit;
     Api.Body.includeContent := VUndefined;
     Api.Body.maxContentLength := maxContentLength;
     Api.Body.domains := VUndefined;
     Api.Body.url := VString (str "https://x.com/report") |}.

(** Exact arithmetic, a search engine that finds the same two pages for
    every query, an extractor that reports every page fetched, and the
    decimal digits of a count. *)
Definition fl (x : Q) : number := Fin x.

Definition search (options : SearchOptions.t)
    : Api.thrown + SearchResultWithMetadata.t :=
  inr {| SearchResultWithMetadata.results := [page (str "abc"); page []];
         SearchResultWithMetadata.engine := str "Browser Bing" |}.

Definition extractContentForResults (results : list SearchResult.t)
    (limit : number) : Api.thrown + list SearchResult.t :=
  inr results.

Fixpoint digits (fuel n : nat) : jsstring :=
  match fuel with
  | O => []
  | S fuel' =>
      (if (n <? 10)%nat then [] else digits fuel' (n / 10))
      ++ [(0x30 + N.of_nat (n mod 10))%N]
  end.

Definition numberToString (n : number) : jsstring :=
  match n with
  | Fin q => digits 20 (Z.to_nat (Qfloor q))
  | _ => str "NaN"
  end.

(** [handleWebSearch] on the arguments a route has validated. *)
Definition handleValidated (args : WebSearchToolInput.t)
    : jsstring + WebSearchToolOutput.t :=
  match Api.typedInput args with
  | Some input =>
      Api.handleWebSearch fl toLowerCase parseURL search
        extractContentForResults numberToString (of_Z 12) input
  | None => inl []
  end.

End Basic.

(** What the examples of the specification need of the platform: on text
    of ASCII code units [toLowerCase] changes the letters A-Z and nothing
    else. *)
Definition lowersAscii (toLowerCase : jsstring -> jsstring) : Prop :=
  forall s, forallb Basic.isAscii s = true ->
            toLowerCase s = List.map Basic.lowerUnit s.

(* ================================================================== *)
(** * Notions used to state the properties *)
(* ================================================================== *)

Module Shape.

(** [s] is what [replaceWsRuns] leaves: its only white space is single
    spaces, never two in a row; [prevSpace] says a space precedes [s]. *)
Fixpoint collapsed_from (prevSpace : bool) (s : jsstring) : bool :=
  match s with
  | [] => true
  | c :: r =>
      if is_ws c
      then (c =? SPACE)%N && negb prevSpace && collapsed_from true r
      else collapsed_from false r
  end.

Definition collapsed (s : jsstring) : bool := collapsed_from false s.

(** The last code unit of [s] is white space. *)
Definition endsInWs (s : jsstring) : bool :=
  match rev s with
  | c :: _ => is_ws c
  | [] => false
  end.

(** The first code unit of [s] is white space. *)
Definition startsInWs (s : jsstring) : bool :=
  match s with
  | c :: _ => is_ws c
  | [] => false
  end.

(** What [cleanText] cuts at [maxLength]. *)
Definition beforeCut (t : jsstring) : jsstring :=
  trim (Utils.replaceBlankLines (Utils.replaceWsRuns t)).

(** The number of words of [s]: the places where a run of code units that
    are not white space starts.  [prevWs] says that white space, or the
    start of the text, precedes [s]. *)
Fixpoint countWords_from (prevWs : bool) (s : jsstring) : nat :=
  match s with
  | [] => 0
  | c :: r =>
      if is_ws c then countWords_from true r
      else (if prevWs then 1 else 0) + countWords_from false r
  end.

Definition countWords (s : jsstring) : nat := countWords_from true s.

(** The pieces of a split that are words: the non-empty ones. *)
Definition wordsOf (pieces : list jsstring) : nat :=
  List.length (filter (fun word => (0 <? List.length word)%nat) pieces).

(** [s] has no blank line: no newline is followed by white space up to
    another newline, that is, [/\n\s*\n/] matches nowhere in [s]. *)
Fixpoint blankFree (s : jsstring) : bool :=
  match s with
  | [] => true
  | c :: r =>
      (if (c =? NEWLINE)%N
       then match Utils.afterLastNewline r with
            | Some _ => false
            | None => true
            end
       else true)
      && blankFree r
  end.

(** [a] is the beginning of [b]. *)
Definition prefixOf {A : Type} (a b : list A) : Prop :=
  exists rest, b = a ++ rest.

End Shape.

Module Wording.

(** "normalize the domains and drop empty entries" *)
Definition keptDomains (toLowerCase : jsstring -> jsstring)
    (domains : list jsstring) : list jsstring :=
  filter (fun d => negb (str_eqb d []))
         (List.map (Utils.normalizeDomain toLowerCase) domains).

(** "site:<d1> OR site:<d2> OR ...", in the given order *)
Fixpoint siteClause (domains : list jsstring) : jsstring :=
  match domains with
  | [] => []
  | [d] => str "site:" ++ d
  | d :: rest => str "site:" ++ d ++ str " OR " ++ siteClause rest
  end.

(** The record has full content to show: [fullContent] is not empty and
    not white space only. *)
Definition hasFull (r : SearchResult.t) : bool :=
  str_truthy (SearchResult.fullContent r)
  && str_truthy (trim (SearchResult.fullContent r)).

(** A record carries an error: the field holds a non-empty string, which
    is what the route's test [searchResult.error] asks. *)
Definition carriesError (r : SearchResult.t) (e : jsstring) : Prop :=
  SearchResult.error r = Some e /\ e <> [].

End Wording.

(* ================================================================== *)
(** * Properties *)
(* ================================================================== *)

Import Utils Shape Wording Api.
Local Open Scope nat_scope.

(** ** The embedding at work *)

Example replaceBlankLines_example :
  replaceBlankLines
    (str "a" ++ [NEWLINE; SPACE; NEWLINE; 0x9%N; NEWLINE] ++ str " b"
         ++ [NEWLINE] ++ str "c")
  = str "a" ++ [NEWLINE] ++ str " b" ++ [NEWLINE] ++ str "c".
Proof. reflexivity. Qed.

Example cleanText_example :
  cleanText (str "  a " ++ [0x9%N; NEWLINE; 0xA0%N] ++ str " b  ")
            cleanText_defaultMaxLength
  = str "a b".
Proof. reflexivity. Qed.

Example getContentPreview_example :
  getContentPreview (str "wait a minute") (of_Z 4) = str "wait...".
Proof. reflexivity. Qed.

Example split_example :
  split SLASH (str "a/b//c") = [str "a"; str "b"; []; str "c"].
Proof. reflexivity. Qed.

Example parseInt10_examples :
  parseInt10 (str "  -12ab") = of_Z (-12)
  /\ parseInt10 (str "10.9") = of_Z 10
  /\ parseInt10 (str "abc") = NaN.
Proof. repeat split. Qed.

Example normalizeDomain_example :
  normalizeDomain Basic.toLowerCase (str "HTTPS://www.Example.com:8080/a/b")
  = str "example.com".
Proof. reflexivity. Qed.

Example validateLimit_examples :
  validateLimit (VString (str "7")) = Valid (VNumber (of_Z 7))
  /\ validateLimit (VNumber (Fin (5 # 2))) = Valid (VNumber (Fin (5 # 2)))
  /\ validateLimit (VBool true)
     = BadRequest (str "limit must be a number between 1 and 10").
Proof. repeat split. Qed.

Section Strings.

Lemma str_eqb_eq (a b : jsstring) : str_eqb a b = true <-> a = b.
Proof.
  revert b; induction a as [|x a IH]; intros [|y b]; simpl; split;
    try congruence; try discriminate.
  - intros H. apply andb_prop in H as [H1 H2].
    apply N.eqb_eq in H1. apply IH in H2. congruence.
  - intros H. injection H as -> ->. rewrite N.eqb_refl. simpl. now apply IH.
Qed.

Lemma stripPrefix_Some (p s r : jsstring) :
  stripPrefix p s = Some r <-> s = p ++ r.
Proof.
  revert s; induction p as [|x p IH]; intros s; simpl.
  - split; congruence.
  - destruct s as [|y s]; [split; discriminate|].
    destruct (N.eqb_spec x y) as [->|ne].
    + rewrite IH. split; congruence.
    + split; [discriminate|]. intros H; injection H as H _. congruence.
Qed.

Lemma dropWhile_suffix p (s : jsstring) :
  exists w, s = w ++ dropWhile p s /\ forallb p w = true.
Proof.
  induction s as [|c s [w [E F]]]; simpl.
  - exists []. auto.
  - destruct (p c) eqn:P.
    + exists (c :: w). simpl. rewrite P, F. split; [congruence | reflexivity].
    + exists []. auto.
Qed.

Lemma dropWhile_id p (s : jsstring) :
  match s with c :: _ => p c = false | [] => True end -> dropWhile p s = s.
Proof. destruct s; simpl; auto. intros ->. reflexivity. Qed.

Lemma dropWhile_head p (s : jsstring) :
  match dropWhile p s with c :: _ => p c = false | [] => True end.
Proof.
  induction s as [|c s IH]; simpl; auto.
  destruct (p c) eqn:P; auto.
Qed.

Lemma endsInWs_snoc (s : jsstring) c : endsInWs (s ++ [c]) = is_ws c.
Proof. unfold endsInWs. rewrite rev_app_distr. reflexivity. Qed.

Lemma trimEnd_snoc (s : jsstring) c :
  trimEnd (s ++ [c]) = if is_ws c then trimEnd s else s ++ [c].
Proof.
  unfold trimEnd. rewrite rev_app_distr. simpl.
  destruct (is_ws c); [reflexivity|]. simpl. now rewrite rev_involutive.
Qed.

Lemma trimEnd_fixed (s : jsstring) : trimEnd s = s <-> endsInWs s = false.
Proof.
  destruct s as [|c s] using rev_ind; [unfold trimEnd, endsInWs; simpl; tauto|].
  rewrite trimEnd_snoc, endsInWs_snoc. destruct (is_ws c); [|tauto].
  split; [|discriminate]. intros E.
  assert (L : List.length (trimEnd s) = List.length (s ++ [c])) by now rewrite E.
  unfold trimEnd in L. rewrite length_rev, length_app in L. simpl in L.
  destruct (dropWhile_suffix is_ws (rev s)) as [w [E' _]].
  apply (f_equal (@List.length _)) in E'.
  rewrite length_rev, length_app in E'. lia.
Qed.

Lemma trimEnd_prefix (s : jsstring) :
  exists w, s = trimEnd s ++ w /\ forallb is_ws w = true.
Proof.
  unfold trimEnd. destruct (dropWhile_suffix is_ws (rev s)) as [w [E F]].
  exists (rev w). split.
  - rewrite <- rev_app_distr, <- E. now rewrite rev_involutive.
  - rewrite forallb_forall in *. intros x Hx. apply F. now apply in_rev.
Qed.

Lemma trimEnd_endsInWs (s : jsstring) : endsInWs (trimEnd s) = false.
Proof.
  unfold endsInWs, trimEnd. rewrite rev_involutive.
  pose proof (dropWhile_head is_ws (rev s)) as H.
  destruct (dropWhile is_ws (rev s)); auto.
Qed.

End Strings.

Section CleanText.

Lemma is_ws_SPACE : is_ws SPACE = true.
Proof. reflexivity. Qed.

Lemma is_ws_NEWLINE : is_ws NEWLINE = true.
Proof. reflexivity. Qed.

Lemma replaceWsRuns_from_collapsed (t : jsstring) :
  forall b b', (b = true -> b' = true) ->
               collapsed_from b (replaceWsRuns_from b' t) = true.
Proof.
  induction t as [|c t IH]; intros b b' Hb; simpl; [reflexivity|].
  destruct (is_ws c) eqn:W.
  - destruct b'.
    + apply IH; auto.
    + simpl. destruct b; [now specialize (Hb eq_refl)|].
      simpl. apply IH; auto.
  - simpl. rewrite W. apply IH. discriminate.
Qed.

Lemma collapsed_from_fixed (s : jsstring) :
  forall b, collapsed_from b s = true -> replaceWsRuns_from b s = s.
Proof.
  induction s as [|c s IH]; intros b H; simpl in *; [reflexivity|].
  destruct (is_ws c).
  - apply andb_prop in H as [H H2]. apply andb_prop in H as [H0 H1].
    apply N.eqb_eq in H0. destruct b; [discriminate|].
    rewrite (IH true H2). congruence.
  - now rewrite (IH false H).
Qed.

Lemma collapsed_from_weaken (s : jsstring) b :
  collapsed_from b s = true -> collapsed_from false s = true.
Proof.
  destruct s as [|c s]; simpl; auto.
  destruct (is_ws c); auto.
  intros H. apply andb_prop in H as [H H2]. apply andb_prop in H as [H0 H1].
  now rewrite H0, H2.
Qed.

Lemma collapsed_from_app (s1 s2 : jsstring) :
  forall b, collapsed_from b (s1 ++ s2) = true ->
            collapsed_from b s1 = true /\ collapsed_from false s2 = true.
Proof.
  induction s1 as [|c s1 IH]; intros b H; simpl in *.
  - split; [reflexivity|]. eapply collapsed_from_weaken; eauto.
  - destruct (is_ws c).
    + apply andb_prop in H as [H H2]. rewrite H. simpl. now apply IH.
    + now apply IH.
Qed.

Lemma collapsed_from_ws (s : jsstring) :
  forall b c, collapsed_from b s = true -> In c s -> is_ws c = true -> c = SPACE.
Proof.
  induction s as [|x s IH]; intros b c H I W; simpl in H; [contradiction|].
  destruct I as [->|I].
  - rewrite W in H. apply andb_prop in H as [H _]. apply andb_prop in H as [H _].
    now apply N.eqb_eq.
  - destruct (is_ws x).
    + apply andb_prop in H as [_ H]. eapply IH; eauto.
    + eapply IH; eauto.
Qed.

Lemma collapsed_from_no_newline (s : jsstring) b :
  collapsed_from b s = true -> ~ In NEWLINE s.
Proof.
  intros H I. pose proof (collapsed_from_ws s b NEWLINE H I is_ws_NEWLINE). discriminate.
Qed.

Lemma replaceBlankLines_go_no_newline (s : jsstring) :
  ~ In NEWLINE s ->
  forall fuel, List.length s <= fuel -> replaceBlankLines_go fuel s = s.
Proof.
  induction s as [|c s IH]; intros N fuel L; destruct fuel; simpl in *;
    try reflexivity; try lia.
  destruct (N.eqb_spec c NEWLINE) as [->|ne]; [exfalso; apply N; auto|].
  rewrite IH; auto. lia.
Qed.

Lemma replaceBlankLines_no_newline (s : jsstring) :
  ~ In NEWLINE s -> replaceBlankLines s = s.
Proof. intros N. apply replaceBlankLines_go_no_newline; auto. Qed.

Lemma afterLastNewline_shorter (r t : jsstring) :
  afterLastNewline r = Some t -> List.length t < List.length r.
Proof.
  revert t; induction r as [|c r IH]; intros t; simpl; [discriminate|].
  destruct (is_ws c); [|discriminate].
  destruct (afterLastNewline r) as [t'|].
  - intros E. injection E as <-. specialize (IH t' eq_refl). lia.
  - destruct (c =? NEWLINE)%N; [|discriminate].
    intros E. injection E as <-. lia.
Qed.

(** The scan of [replaceBlankLines] never runs out of fuel: any fuel from
    the length of the text on gives the same result. *)
Lemma replaceBlankLines_go_enough (n : nat) :
  forall (s : jsstring) f1 f2,
    List.length s <= n -> List.length s <= f1 -> List.length s <= f2 ->
    replaceBlankLines_go f1 s = replaceBlankLines_go f2 s.
Proof.
  induction n as [|n IH]; intros s f1 f2 Ln L1 L2.
  - destruct s; [|simpl in Ln; lia]. destruct f1, f2; reflexivity.
  - destruct s as [|c r]; [destruct f1, f2; reflexivity|].
    simpl in Ln, L1, L2.
    destruct f1 as [|f1]; [lia|]. destruct f2 as [|f2]; [lia|].
    cbn [replaceBlankLines_go].
    destruct (c =? NEWLINE)%N.
    + destruct (afterLastNewline r) as [t|] eqn:E.
      * apply afterLastNewline_shorter in E.
        f_equal. apply IH; lia.
      * f_equal. apply IH; lia.
    + f_equal. apply IH; lia.
Qed.

(** [substring(0, m)] keeps a prefix. *)
Lemma substring_from_0 (s : jsstring) (m : number) :
  substring s (of_Z 0) m
  = firstn (clampIndex (ToIntegerOrInfinity m) (List.length s)) s.
Proof.
  unfold substring.
  change (clampIndex (ToIntegerOrInfinity (of_Z 0)) (List.length s)) with 0.
  rewrite Nat.min_0_l, Nat.max_0_l, Nat.sub_0_r. reflexivity.
Qed.

Lemma clampIndex_le i len : clampIndex i len <= len.
Proof. destruct i; simpl; lia. Qed.

Lemma clampIndex_within i len n :
  n <= clampIndex i len -> clampIndex i n = n.
Proof. destruct i; simpl; lia. Qed.

Lemma endsWith_snoc_unit (s : jsstring) c x :
  endsWith (s ++ [c]) [x] = (c =? x)%N.
Proof.
  unfold endsWith. rewrite length_app. cbn [List.length].
  replace (List.length s + 1 - 1) with (List.length s) by lia.
  rewrite skipn_app, skipn_all, Nat.sub_diag.
  destruct (Nat.leb_spec 1 (List.length s + 1)); [|lia].
  cbn. now rewrite andb_true_r.
Qed.

Lemma collapsed_endsWith_space (s : jsstring) :
  collapsed s = true -> endsWith s (str " ") = endsInWs s.
Proof.
  intros H. destruct s as [|c s _] using rev_ind; [reflexivity|].
  rewrite endsInWs_snoc. change (str " ") with [SPACE].
  rewrite endsWith_snoc_unit.
  destruct (is_ws c) eqn:W.
  - apply N.eqb_eq. apply (collapsed_from_ws (s ++ [c]) false c H); auto.
    apply in_or_app; simpl; auto.
  - apply N.eqb_neq. intros ->. discriminate.
Qed.

Lemma cleanText_cut (t : jsstring) m :
  cleanText t m
  = firstn (clampIndex (ToIntegerOrInfinity m) (List.length (beforeCut t)))
           (beforeCut t).
Proof. unfold cleanText. now rewrite substring_from_0. Qed.

Lemma beforeCut_trims (t : jsstring) :
  beforeCut t = trim (replaceWsRuns t).
Proof.
  unfold beforeCut. rewrite replaceBlankLines_no_newline; [reflexivity|].
  eapply collapsed_from_no_newline.
  apply (replaceWsRuns_from_collapsed t false false). auto.
Qed.

Lemma trim_collapsed (v : jsstring) :
  collapsed v = true ->
  collapsed (trim v) = true /\ startsInWs (trim v) = false
  /\ endsInWs (trim v) = false.
Proof.
  intros H. unfold trim, trimStart.
  destruct (dropWhile_suffix is_ws v) as [w [E _]].
  pose proof (dropWhile_head is_ws v) as Hd.
  set (x := dropWhile is_ws v) in *.
  assert (Cx : collapsed x = true).
  { unfold collapsed in H. rewrite E in H. now apply collapsed_from_app in H. }
  destruct (trimEnd_prefix x) as [w' [E' _]].
  split; [|split].
  - unfold collapsed in Cx. rewrite E' in Cx. now apply collapsed_from_app in Cx.
  - destruct (trimEnd x) as [|c r]; [reflexivity|].
    rewrite E' in Hd. exact Hd.
  - apply trimEnd_endsInWs.
Qed.

Lemma firstn_collapsed (u : jsstring) k :
  collapsed u = true -> startsInWs u = false ->
  collapsed (firstn k u) = true /\ startsInWs (firstn k u) = false.
Proof.
  intros C S. split.
  - unfold collapsed in C. rewrite <- (firstn_skipn k u) in C.
    now apply collapsed_from_app in C.
  - destruct k, u; simpl in *; auto.
Qed.

Lemma cleanText_collapsed (t : jsstring) m :
  collapsed (cleanText t m) = true /\ startsInWs (cleanText t m) = false.
Proof.
  rewrite cleanText_cut, beforeCut_trims.
  destruct (trim_collapsed (replaceWsRuns t)) as [C [S _]].
  - apply (replaceWsRuns_from_collapsed t false false). auto.
  - now apply firstn_collapsed.
Qed.

(** A second pass only removes a space left at the cut. *)
Lemma cleanText_twice (t : jsstring) m :
  cleanText (cleanText t m) m = trimEnd (cleanText t m).
Proof.
  destruct (cleanText_collapsed t m) as [C S].
  assert (L : List.length (cleanText t m)
              <= clampIndex (ToIntegerOrInfinity m) (List.length (beforeCut t))).
  { rewrite cleanText_cut, length_firstn. lia. }
  set (c := cleanText t m) in *.
  rewrite cleanText_cut, beforeCut_trims.
  unfold replaceWsRuns. rewrite (collapsed_from_fixed c false C).
  assert (T : trim c = trimEnd c).
  { unfold trim, trimStart. rewrite dropWhile_id; [reflexivity|].
    destruct c; simpl in *; auto. }
  rewrite T. apply firstn_all2.
  destruct (trimEnd_prefix c) as [w [E _]].
  apply (f_equal (@List.length _)) in E. rewrite length_app in E.
  rewrite (clampIndex_within (ToIntegerOrInfinity m) (List.length (beforeCut t)));
    lia.
Qed.

End CleanText.

(** C2, as amended.  Cleaning cleaned text gives the same text exactly when
    the cleaned text does not end in a space: [cleanText (cleanText t m) m]
    equals [cleanText t m] if and only if [cleanText t m] does not end with
    " ".  (The cut at [m] comes after the trim, so it can leave a space at
    the end, which a second pass trims away; see [cleanText_twice].) *)
Theorem cleanText_idempotent_iff (t : jsstring) (m : number) :
  cleanText (cleanText t m) m = cleanText t m
  <-> endsWith (cleanText t m) (str " ") = false.
Proof.
  rewrite cleanText_twice, trimEnd_fixed.
  rewrite collapsed_endsWith_space; [tauto|]. apply cleanText_collapsed.
Qed.

(** C2 as stated fails: with t = "ab cd" and m = 3 the first pass gives
    "ab " and the second "ab". *)
Lemma cleanText_not_idempotent :
  cleanText (cleanText (str "ab cd") (of_Z 3)) (of_Z 3)
  <> cleanText (str "ab cd") (of_Z 3).
Proof. vm_compute. discriminate. Qed.


Section Preview.

Lemma str_eqb_refl (a : jsstring) : str_eqb a a = true.
Proof. now apply str_eqb_eq. Qed.

Lemma endsWith_app (s x : jsstring) : endsWith (s ++ x) x = true.
Proof.
  unfold endsWith. rewrite length_app.
  replace (List.length s + List.length x - List.length x) with (List.length s)
    by lia.
  rewrite skipn_app, skipn_all, Nat.sub_diag. simpl. rewrite str_eqb_refl.
  rewrite andb_true_r. apply Nat.leb_le. lia.
Qed.

Lemma app_ellipsis_differs (s : jsstring) : s ++ ELLIPSIS <> s.
Proof.
  intros E. apply (f_equal (@List.length _)) in E.
  rewrite length_app in E. simpl in E. lia.
Qed.

End Preview.

(** C4, as amended.  [getContentPreview text n] is [cleanText text n]
    followed by "..." if and only if [cleanText text n] has length exactly
    [n], and is [cleanText text n] itself if and only if it has not.  So a
    cleaned text of length [n] gives a preview that ends with "...", and
    otherwise the preview ends with "..." just when the cleaned text does. *)
Theorem getContentPreview_marker (text : jsstring) (n : number) :
  (getContentPreview text n = cleanText text n ++ ELLIPSIS
   <-> num_eq (of_nat (List.length (cleanText text n))) n = true)
  /\ (getContentPreview text n = cleanText text n
      <-> num_eq (of_nat (List.length (cleanText text n))) n = false)
  /\ (num_eq (of_nat (List.length (cleanText text n))) n = true ->
      endsWith (getContentPreview text n) ELLIPSIS = true)
  /\ (num_eq (of_nat (List.length (cleanText text n))) n = false ->
      endsWith (getContentPreview text n) ELLIPSIS
      = endsWith (cleanText text n) ELLIPSIS).
Proof.
  unfold getContentPreview.
  destruct (num_eq (of_nat (List.length (cleanText text n))) n).
  - repeat split; auto; try discriminate.
    + intros E. now apply app_ellipsis_differs in E.
    + intros _. apply endsWith_app.
  - repeat split; auto; try discriminate.
    intros E. symmetry in E. now apply app_ellipsis_differs in E.
Qed.

(** C4 as stated fails: the preview of "wait..." for n = 500 ends with
    "..." although the cleaned text has length 7, not 500. *)
Lemma getContentPreview_ellipsis_without_cut :
  endsWith (getContentPreview (str "wait...") (of_Z 500)) ELLIPSIS = true
  /\ num_eq (of_nat (List.length (cleanText (str "wait...") (of_Z 500))))
            (of_Z 500) = false.
Proof. split; vm_compute; reflexivity. Qed.

Section Domains.

Variable toLowerCase : jsstring -> jsstring.

Lemma stripPrefix_app (p1 p2 s : jsstring) :
  stripPrefix (p1 ++ p2) s
  = match stripPrefix p1 s with
    | Some r => stripPrefix p2 r
    | None => None
    end.
Proof.
  revert s; induction p1 as [|x p1 IH]; intros s; simpl; [reflexivity|].
  destruct s as [|y s]; [reflexivity|]. destruct (x =? y)%N; auto.
Qed.

Lemma stripLeading_stripPrefix (p s : jsstring) :
  stripLeading p s = match stripPrefix p s with Some r => r | None => s end.
Proof.
  unfold stripLeading, startsWith.
  destruct (stripPrefix p s) as [r|] eqn:E; [|reflexivity].
  apply stripPrefix_Some in E. subst s.
  now rewrite skipn_app, skipn_all, Nat.sub_diag.
Qed.

Lemma removeWww_spec (s : jsstring) : removeWww s = stripLeading (str "www.") s.
Proof. now rewrite stripLeading_stripPrefix. Qed.

Lemma removeProtocol_spec (s : jsstring) :
  removeProtocol s
  = if startsWith s (str "http://") then stripLeading (str "http://") s
    else stripLeading (str "https://") s.
Proof.
  rewrite !stripLeading_stripPrefix. unfold removeProtocol, matchProtocol, startsWith.
  change (str "http://") with (str "http" ++ str "://").
  change (str "https://") with (str "http" ++ [0x73%N] ++ str "://").
  rewrite !stripPrefix_app.
  assert (Hs : forall r, stripPrefix (str "://") (0x73%N :: r) = None)
    by reflexivity.
  assert (Hc : forall c r, stripPrefix [0x73%N] (c :: r)
                           = if (c =? 0x73)%N then Some r else None).
  { intros c r. rewrite N.eqb_sym. reflexivity. }
  remember (str "://") as sep eqn:Esep.
  destruct (stripPrefix (str "http") s) as [r|]; [|reflexivity].
  rewrite stripPrefix_app.
  destruct r as [|c r].
  { cbn [stripPrefix]. destruct (stripPrefix sep []); reflexivity. }
  rewrite Hc. destruct (N.eqb_spec c 0x73) as [->|ne].
  - rewrite Hs. destruct (stripPrefix sep r); reflexivity.
  - destruct (stripPrefix sep (c :: r)); reflexivity.
Qed.

Lemma split_nonempty sep (s : jsstring) : split sep s <> [].
Proof.
  destruct s as [|c s]; simpl; [discriminate|].
  destruct (c =? sep)%N; [discriminate|]. destruct (split sep s); discriminate.
Qed.

Lemma splitFirst_spec sep (s : jsstring) : splitFirst sep s = cutAtFirst sep s.
Proof.
  unfold splitFirst. induction s as [|c s IH]; simpl; [reflexivity|].
  destruct (c =? sep)%N; [reflexivity|].
  destruct (split sep s); now rewrite <- IH.
Qed.

End Domains.

(** C7, as amended.  For every input string, [normalizeDomain] returns the
    input trimmed of surrounding white space, then lowercased, with a
    leading "http://" or "https://" stripped, a leading "www." stripped,
    then cut at the first "/" and at the first ":": it is the
    specification's normalisation applied to the trimmed input, whatever
    the lowercasing function. *)
Theorem normalizeDomain_trims_then_spec
    (toLowerCase : jsstring -> jsstring) (domain : jsstring) :
  normalizeDomain toLowerCase domain
  = normalizeDomain_spec toLowerCase (trim domain).
Proof.
  unfold normalizeDomain, normalizeDomain_spec.
  now rewrite !splitFirst_spec, removeWww_spec, removeProtocol_spec.
Qed.

(** C7 as stated fails on an input with surrounding white space:
    [normalizeDomain " Example.com "] is "example.com", while lowercasing,
    stripping and cutting alone leave " example.com ". *)
Lemma normalizeDomain_not_spec_on_padded_input :
  normalizeDomain Basic.toLowerCase (str " Example.com ")
  <> normalizeDomain_spec Basic.toLowerCase (str " Example.com ").
Proof. vm_compute. discriminate. Qed.




Section Query.

Variable toLowerCase : jsstring -> jsstring.

Lemma keptDomains_filter (domains : list jsstring) :
  filter (fun domain => 0 <? List.length domain)
         (List.map (normalizeDomain toLowerCase) domains)
  = keptDomains toLowerCase domains.
Proof.
  unfold keptDomains. apply filter_ext. now intros [|c d].
Qed.

Lemma join_siteClause (ds : list jsstring) :
  join (str " OR ") (List.map (fun domain => str "site:" ++ domain) ds)
  = siteClause ds.
Proof.
  induction ds as [|d ds IH]; [reflexivity|].
  destruct ds as [|d' ds]; [reflexivity|].
  cbn [List.map join siteClause] in *. rewrite IH.
  now rewrite <- !app_assoc.
Qed.

Lemma buildDomainFilteredQuery_cases (q : jsstring) (ds : list jsstring) k :
  buildDomainFilteredQuery toLowerCase q ds k
  = match keptDomains toLowerCase ds with
    | [] => q
    | [d] =>
        if num_gt (of_nat 1) k then q else q ++ str " site:" ++ d
    | kept =>
        if num_gt (of_nat (List.length kept)) k then q
        else q ++ str " (" ++ siteClause kept ++ str ")"
    end.
Proof.
  unfold buildDomainFilteredQuery.
  rewrite keptDomains_filter, join_siteClause.
  destruct ds as [|d0 ds0]; [reflexivity|].
  cbn [List.length Nat.eqb].
  destruct (keptDomains toLowerCase (d0 :: ds0)) as [|d1 [|d2 rest]];
    reflexivity.
Qed.

Lemma forallb_dropWhile p q (s : jsstring) :
  forallb p s = true -> forallb p (dropWhile q s) = true.
Proof.
  induction s as [|c s IH]; simpl; auto.
  intros H. apply andb_prop in H as [H1 H2].
  destruct (q c); auto. simpl. now rewrite H1, H2.
Qed.

Lemma forallb_rev_true p (s : jsstring) :
  forallb p s = true -> forallb p (rev s) = true.
Proof.
  rewrite !forallb_forall. intros H x I. apply H. now apply in_rev.
Qed.

Lemma forallb_trim p (s : jsstring) :
  forallb p s = true -> forallb p (trim s) = true.
Proof.
  intros H. unfold trim, trimEnd, trimStart.
  now apply forallb_rev_true, forallb_dropWhile, forallb_rev_true,
    forallb_dropWhile.
Qed.

Lemma normalizeDomain_ascii (d : jsstring) :
  lowersAscii toLowerCase -> forallb Basic.isAscii d = true ->
  normalizeDomain toLowerCase d = normalizeDomain Basic.toLowerCase d.
Proof.
  intros L A. unfold normalizeDomain. rewrite L; [reflexivity|].
  now apply forallb_trim.
Qed.

Lemma buildDomainFilteredQuery_ascii (q : jsstring) (ds : list jsstring) k :
  lowersAscii toLowerCase ->
  forallb (forallb Basic.isAscii) ds = true ->
  buildDomainFilteredQuery toLowerCase q ds k
  = buildDomainFilteredQuery Basic.toLowerCase q ds k.
Proof.
  intros L A. unfold buildDomainFilteredQuery.
  rewrite (map_ext_in (normalizeDomain toLowerCase)
             (normalizeDomain Basic.toLowerCase)); [reflexivity|].
  intros d I. apply normalizeDomain_ascii; auto.
  rewrite forallb_forall in A. now apply A.
Qed.

End Query.

(** C3.  [buildDomainFilteredQuery q ds k] normalizes the domains and drops
    the empty ones; when more than [k] remain it returns [q] unchanged;
    otherwise it appends " site:<d>" for a single domain and
    " (site:<d1> OR site:<d2> OR ...)" for several, in the given order.  On
    a platform whose lowercasing treats ASCII text as JavaScript does,
    [buildDomainFilteredQuery "cats" ["https://Example.com/";
    "www.example.org"] 10] is "cats (site:example.com OR site:example.org)". *)
Theorem buildDomainFilteredQuery_spec
    (toLowerCase : jsstring -> jsstring) (Hlower : lowersAscii toLowerCase)
    (q : jsstring) (ds : list jsstring) (k : number) :
  (num_gt (of_nat (List.length (keptDomains toLowerCase ds))) k = true ->
   buildDomainFilteredQuery toLowerCase q ds k = q)
  /\ (num_gt (of_nat (List.length (keptDomains toLowerCase ds))) k = false ->
      forall d, keptDomains toLowerCase ds = [d] ->
      buildDomainFilteredQuery toLowerCase q ds k = q ++ str " site:" ++ d)
  /\ (num_gt (of_nat (List.length (keptDomains toLowerCase ds))) k = false ->
      2 <= List.length (keptDomains toLowerCase ds) ->
      buildDomainFilteredQuery toLowerCase q ds k
      = q ++ str " (" ++ siteClause (keptDomains toLowerCase ds) ++ str ")")
  /\ buildDomainFilteredQuery toLowerCase (str "cats")
       [str "https://Example.com/"; str "www.example.org"] (of_Z 10)
     = str "cats (site:example.com OR site:example.org)".
Proof.
  split; [|split; [|split]].
  4: { rewrite buildDomainFilteredQuery_ascii by (auto; reflexivity).
       vm_compute. reflexivity. }
  all: rewrite buildDomainFilteredQuery_cases;
    destruct (keptDomains toLowerCase ds) as [|d1 [|d2 rest]];
    cbn [List.length]; intros G.
  - reflexivity.
  - now rewrite G.
  - now rewrite G.
  - intros d E. discriminate.
  - intros d E. injection E as ->. now rewrite G.
  - intros d E. discriminate.
  - intros L. lia.
  - intros L. lia.
  - intros _. now rewrite G.
Qed.

(** C3 at the reference runtime, for the query "cats". *)
Lemma buildDomainFilteredQuery_spec_witness :
  lowersAscii Basic.toLowerCase
  /\ buildDomainFilteredQuery Basic.toLowerCase (str "cats")
       [str "https://Example.com/"; str "www.example.org"] (of_Z 10)
     = str "cats (site:example.com OR site:example.org)".
Proof.
  split.
  - intros s _. reflexivity.
  - apply (buildDomainFilteredQuery_spec Basic.toLowerCase
             (fun s _ => eq_refl) (str "cats")
             [str "https://Example.com/"; str "www.example.org"] (of_Z 10)).
Defined.

(** C8.  [isPdfUrl url] is true if and only if either [url] parses as a URL
    whose path, lowercased, ends in ".pdf", or [url] fails to parse and
    the raw string, lowercased, ends in ".pdf".  On a platform that
    lowercases ASCII text as JavaScript does, parses
    "https://x.com/report.PDF" with path "/report.PDF" and rejects
    "not-a-url-but-ends-in.pdf", [isPdfUrl] is true of both, of the second
    through the fallback. *)
Theorem isPdfUrl_spec
    (toLowerCase : jsstring -> jsstring) (parseURL : jsstring -> option URL)
    (Hlower : lowersAscii toLowerCase)
    (Hparse : exists u, parseURL (str "https://x.com/report.PDF") = Some u
                        /\ pathname u = str "/report.PDF")
    (Hfail : parseURL (str "not-a-url-but-ends-in.pdf") = None) :
  (forall url,
      isPdfUrl toLowerCase parseURL url = true
      <-> (exists u, parseURL url = Some u
                     /\ endsWith (toLowerCase (pathname u)) (str ".pdf") = true)
          \/ (parseURL url = None
              /\ endsWith (toLowerCase url) (str ".pdf") = true))
  /\ isPdfUrl toLowerCase parseURL (str "https://x.com/report.PDF") = true
  /\ isPdfUrl toLowerCase parseURL (str "not-a-url-but-ends-in.pdf") = true.
Proof.
  split; [|split].
  - intros url. unfold isPdfUrl. destruct (parseURL url) as [u|].
    + split.
      * intros H. left. exists u. auto.
      * intros [[u' [E H]]|[E _]]; [|discriminate]. now injection E as ->.
    + split.
      * intros H. right. auto.
      * intros [[u' [E _]]|[_ H]]; [discriminate|exact H].
  - unfold isPdfUrl. destruct Hparse as [u [-> ->]].
    rewrite Hlower by reflexivity. reflexivity.
  - unfold isPdfUrl. rewrite Hfail, Hlower by reflexivity. reflexivity.
Qed.

(** C8 at the reference runtime. *)
Lemma isPdfUrl_spec_witness :
  lowersAscii Basic.toLowerCase
  /\ (exists u, Basic.parseURL (str "https://x.com/report.PDF") = Some u
                /\ pathname u = str "/report.PDF")
  /\ Basic.parseURL (str "not-a-url-but-ends-in.pdf") = None
  /\ isPdfUrl Basic.toLowerCase Basic.parseURL (str "https://x.com/report.PDF")
     = true
  /\ isPdfUrl Basic.toLowerCase Basic.parseURL (str "not-a-url-but-ends-in.pdf")
     = true.
Proof.
  assert (L : lowersAscii Basic.toLowerCase) by (intros s _; reflexivity).
  assert (P : exists u, Basic.parseURL (str "https://x.com/report.PDF") = Some u
                        /\ pathname u = str "/report.PDF")
    by (eexists; split; reflexivity).
  assert (F : Basic.parseURL (str "not-a-url-but-ends-in.pdf") = None)
    by reflexivity.
  repeat (split; [assumption|]).
  apply (isPdfUrl_spec Basic.toLowerCase Basic.parseURL L P F).
Defined.



Section Gateway.

Local Open Scope Q_scope.

Lemma num_lt_Fin p q : num_lt (Fin p) (Fin q) = true <-> p < q.
Proof.
  simpl. rewrite negb_true_iff. split.
  - intros H. apply Qnot_le_lt. intros L. apply Qle_bool_iff in L. congruence.
  - intros H. destruct (Qle_bool q p) eqn:E; [|reflexivity].
    apply Qle_bool_iff in E. exfalso. now apply (Qlt_not_le p q).
Qed.

Lemma num_lt_Fin_false p q : num_lt (Fin p) (Fin q) = false <-> q <= p.
Proof.
  simpl. rewrite negb_false_iff. apply Qle_bool_iff.
Qed.

(** The count check lets through exactly the numbers from 1 to 10. *)
Lemma validateLimit_Valid (limit x : value) :
  limit <> VUndefined ->
  validateLimit limit = Valid x ->
  exists q, x = VNumber (Fin q) /\ 1 <= q /\ q <= 10
            /\ parseIfString limit = VNumber (Fin q).
Proof.
  intros U. unfold validateLimit.
  destruct limit as [| |b|n|s|l|]; try congruence; try discriminate;
    cbn [parseIfString].
  - destruct n as [| | |q]; try discriminate.
    cbn [isNaN orb].
    destruct (num_lt (Fin q) (of_Z 1)) eqn:L1; [discriminate|].
    destruct (num_gt (Fin q) (of_Z 10)) eqn:L2; [discriminate|].
    intros E. injection E as <-. exists q.
    apply num_lt_Fin_false in L1, L2. auto.
  - destruct (parseInt10 s) as [| | |q]; try discriminate.
    cbn [isNaN orb].
    destruct (num_lt (Fin q) (of_Z 1)) eqn:L1; [discriminate|].
    destruct (num_gt (Fin q) (of_Z 10)) eqn:L2; [discriminate|].
    intros E. injection E as <-. exists q.
    apply num_lt_Fin_false in L1, L2. auto.
Qed.

Lemma validateLimit_out_of_range (limit : value) n :
  limit <> VUndefined ->
  parseIfString limit = VNumber n ->
  num_lt n (of_Z 1) || num_gt n (of_Z 10) = true ->
  validateLimit limit
  = BadRequest (str "limit must be a number between 1 and 10").
Proof.
  intros U P R. unfold validateLimit. rewrite P.
  rewrite <- orb_assoc, R, orb_true_r.
  destruct limit; try reflexivity. congruence.
Qed.

Lemma withDefault_defined d v : d <> VUndefined -> withDefault d v <> VUndefined.
Proof. destruct v; simpl; auto; discriminate. Qed.

End Gateway.


Section Routes.

Local Open Scope Q_scope.

Variable toLowerCase : jsstring -> jsstring.
Variable parseURL : jsstring -> option URL.
Variable handleWebSearch :
  WebSearchToolInput.t -> jsstring + WebSearchToolOutput.t.
Variable searchSummaries :
  jsstring -> value -> option (list jsstring) -> thrown + list SearchResult.t.
Variable extractContent : ContentExtractionOptions.t -> thrown + jsstring.

Lemma requestedLimit_defined body : requestedLimit body <> VUndefined.
Proof. apply withDefault_defined. discriminate. Qed.

Lemma validateSearch_limit (body : Body.t) args :
  validateSearch toLowerCase body = Valid args ->
  validateLimit (requestedLimit body) = Valid (WebSearchToolInput.limit args).
Proof.
  unfold validateSearch, bind.
  destruct (validateRequiredString _ _); [discriminate|].
  destruct (validateLimit _); [discriminate|].
  destruct (validateMaxContentLength _); [discriminate|].
  destruct (validateDomains _); [discriminate|].
  intros E. injection E as <-. reflexivity.
Qed.

Lemma validateSummaries_limit (body : Body.t) query l doms :
  validateSummaries body = Valid (query, l, doms) ->
  validateLimit (requestedLimit body) = Valid l.
Proof.
  unfold validateSummaries, bind.
  destruct (validateRequiredString _ _); [discriminate|].
  destruct (validateLimit _); [discriminate|].
  destruct (validateDomains _); [discriminate|].
  intros E. injection E as _ <- _. reflexivity.
Qed.

Lemma apiSearch_rejects_limit (body : Body.t) n :
  parseIfString (requestedLimit body) = VNumber n ->
  num_lt n (of_Z 1) || num_gt n (of_Z 10) = true ->
  exists m, apiSearch toLowerCase handleWebSearch body = Status400 m.
Proof.
  intros P R. unfold apiSearch, validateSearch, bind.
  destruct (validateRequiredString _ _); [eauto|].
  rewrite (validateLimit_out_of_range _ n (requestedLimit_defined body) P R).
  eauto.
Qed.

Lemma apiSummaries_rejects_limit (body : Body.t) n :
  parseIfString (requestedLimit body) = VNumber n ->
  num_lt n (of_Z 1) || num_gt n (of_Z 10) = true ->
  exists m, apiSummaries searchSummaries body = Status400 m.
Proof.
  intros P R. unfold apiSummaries, validateSummaries, bind.
  destruct (validateRequiredString _ _); [eauto|].
  rewrite (validateLimit_out_of_range _ n (requestedLimit_defined body) P R).
  eauto.
Qed.

End Routes.

(** C1, as amended.  The requested count (5 when absent, parsed with
    [parseInt] when a string) is checked against [1,10], not clamped: when
    /api/search or /api/search/summaries accepts the request, the count
    passed on is the requested number itself and lies in [1,10]; when
    the requested number is below 1 or above 10 both routes answer 400. *)
Theorem limit_validated_not_clamped
    (toLowerCase : jsstring -> jsstring) (body : Body.t) :
  (forall args,
      validateSearch toLowerCase body = Valid args ->
      exists q, WebSearchToolInput.limit args = VNumber (Fin q)
                /\ (1 <= q)%Q /\ (q <= 10)%Q
                /\ parseIfString (requestedLimit body) = VNumber (Fin q))
  /\ (forall query l doms,
         validateSummaries body = Valid (query, l, doms) ->
         exists q, l = VNumber (Fin q)
                   /\ (1 <= q)%Q /\ (q <= 10)%Q
                   /\ parseIfString (requestedLimit body) = VNumber (Fin q))
  /\ (forall n,
         parseIfString (requestedLimit body) = VNumber n ->
         num_lt n (of_Z 1) || num_gt n (of_Z 10) = true ->
         (forall handleWebSearch,
             exists m, apiSearch toLowerCase handleWebSearch body = Status400 m)
         /\ (forall searchSummaries,
                exists m, apiSummaries searchSummaries body = Status400 m)).
Proof.
  split; [|split].
  - intros args E. apply validateSearch_limit in E.
    apply validateLimit_Valid in E; auto using requestedLimit_defined.
  - intros query l doms E. apply validateSummaries_limit in E.
    apply validateLimit_Valid in E; auto using requestedLimit_defined.
  - intros n P R. split; intros h.
    + eapply apiSearch_rejects_limit; eauto.
    + eapply apiSummaries_rejects_limit; eauto.
Qed.

(** C1 as stated fails: a search for "cats" with count 11, or with count
    0, is answered 400 "limit must be a number between 1 and 10", not
    served with a count brought into range. *)
Lemma limit_out_of_range_rejected :
  apiSearch Basic.toLowerCase Basic.handleWebSearch
    (Basic.request (VNumber (of_Z 11)) VUndefined)
  = Status400 (str "limit must be a number between 1 and 10")
  /\ apiSearch Basic.toLowerCase Basic.handleWebSearch
       (Basic.request (VNumber (of_Z 0)) VUndefined)
     = Status400 (str "limit must be a number between 1 and 10").
Proof. split; vm_compute; reflexivity. Qed.


Section Formatting.

Local Open Scope Q_scope.

Ltac format_cases m r :=
  unfold formatSearchResult, Wording.hasFull;
  destruct (str_truthy (SearchResult.fullContent r)
            && str_truthy (trim (SearchResult.fullContent r)));
  destruct (truthy (overLimit m (List.length (SearchResult.fullContent r))));
  destruct (str_truthy (SearchResult.contentPreview r)
            && str_truthy (trim (SearchResult.contentPreview r)));
  destruct (SearchResult.error r) as [e|];
  try destruct (FetchStatus_eqb (SearchResult.fetchStatus r) FetchError
                && str_truthy e);
  try reflexivity.

Lemma format_fullContent m r :
  Formatted.fullContent (formatSearchResult m r)
  = if hasFull r
    then Some (if truthy (overLimit m (List.length (SearchResult.fullContent r)))
               then substringTo (SearchResult.fullContent r) m
               else SearchResult.fullContent r)
    else None.
Proof. format_cases m r. Qed.

Lemma format_contentTruncated m r :
  Formatted.contentTruncated (formatSearchResult m r)
  = if hasFull r
       && truthy (overLimit m (List.length (SearchResult.fullContent r)))
    then Some true else None.
Proof. format_cases m r. Qed.

Lemma format_originalLength m r :
  Formatted.originalLength (formatSearchResult m r)
  = if hasFull r
       && truthy (overLimit m (List.length (SearchResult.fullContent r)))
    then Some (List.length (SearchResult.fullContent r)) else None.
Proof. format_cases m r. Qed.

Lemma format_contentPreview m r :
  Formatted.contentPreview (formatSearchResult m r)
  = if hasFull r then None
    else if str_truthy (SearchResult.contentPreview r)
            && str_truthy (trim (SearchResult.contentPreview r))
         then Some (SearchResult.contentPreview r) else None.
Proof. format_cases m r. Qed.

Lemma format_error m r :
  Formatted.error (formatSearchResult m r)
  = match SearchResult.error r with
    | Some e =>
        if FetchStatus_eqb (SearchResult.fetchStatus r) FetchError
           && str_truthy e
        then Some e else None
    | None => None
    end.
Proof. format_cases m r. Qed.

Lemma overLimit_None len : truthy (overLimit None len) = false.
Proof. reflexivity. Qed.

Lemma overLimit_positive m len :
  num_gt m (of_Z 0) = true -> num_gt (of_nat len) m = true ->
  truthy (overLimit (Some m) len) = true
  /\ exists q, m = Fin q /\ 0 < q /\ q < inject_Z (Z.of_nat len).
Proof.
  intros P L. destruct m as [| | |q]; try discriminate.
  apply num_lt_Fin in P, L. split; [|eauto].
  unfold overLimit. cbn [num_truthy].
  destruct (Qeq_bool q 0) eqn:E.
  - apply Qeq_bool_iff in E. rewrite E in P. now apply Qlt_irrefl in P.
  - cbn [negb truthy]. apply andb_true_intro.
    split; now apply num_lt_Fin.
Qed.

Lemma Qtrunc_nonneg q : 0 <= q -> Qtrunc q = Qfloor q.
Proof.
  intros H. unfold Qtrunc. apply Qle_bool_iff in H. now rewrite H.
Qed.

Lemma substringTo_floor (content : jsstring) q :
  0 < q -> q < inject_Z (Z.of_nat (List.length content)) ->
  substringTo content (Some (Fin q)) = firstn (Z.to_nat (Qfloor q)) content
  /\ List.length (firstn (Z.to_nat (Qfloor q)) content) = Z.to_nat (Qfloor q).
Proof.
  intros P L.
  assert (B : (Qfloor q < Z.of_nat (List.length content))%Z).
  { rewrite Zlt_Qlt. eapply Qle_lt_trans; [apply Qfloor_le|exact L]. }
  assert (M : Nat.min (Z.to_nat (Qfloor q)) (List.length content)
              = Z.to_nat (Qfloor q)) by lia.
  split.
  - unfold substringTo. rewrite substring_from_0. cbn [ToIntegerOrInfinity].
    rewrite Qtrunc_nonneg by now apply Qlt_le_weak.
    cbn [clampIndex]. now rewrite M.
  - now rewrite length_firstn.
Qed.

Lemma floor_of_integer q j :
  num_eq (Fin q) (of_nat j) = true -> Z.to_nat (Qfloor q) = j.
Proof.
  cbn [num_eq of_nat of_Z]. intros E. apply Qeq_bool_iff in E.
  rewrite E, Qfloor_Z. apply Nat2Z.id.
Qed.

Lemma validateMaxContentLength_positive q :
  0 < q -> validateMaxContentLength (VNumber (Fin q)) = Valid (Some (Fin q)).
Proof.
  intros P. unfold validateMaxContentLength. cbn [parseIfString isNaN orb].
  assert (L : num_lt (Fin q) (of_Z 0) = false).
  { apply num_lt_Fin_false. now apply Qlt_le_weak. }
  rewrite L. cbn [num_eq of_Z].
  destruct (Qeq_bool q (inject_Z 0)) eqn:E; [|reflexivity].
  apply Qeq_bool_iff in E. rewrite E in P. now apply Qlt_irrefl in P.
Qed.

Lemma validateMaxContentLength_zero (v : value) q :
  parseIfString v = VNumber (Fin q) -> q == 0 ->
  validateMaxContentLength v = Valid None.
Proof.
  intros P Z. unfold validateMaxContentLength. rewrite P.
  cbn [isNaN orb].
  assert (L : num_lt (Fin q) (of_Z 0) = false).
  { apply num_lt_Fin_false. rewrite Z. apply Qle_refl. }
  rewrite L. cbn [num_eq of_Z].
  assert (E : Qeq_bool q (inject_Z 0) = true) by now apply Qeq_bool_iff.
  rewrite E. destruct v; reflexivity.
Qed.

Variable toLowerCase : jsstring -> jsstring.
Variable handleWebSearch :
  WebSearchToolInput.t -> jsstring + WebSearchToolOutput.t.

(** What a 200 answer of /api/search is made of. *)
Lemma apiSearch_200 (body : Body.t) resp :
  apiSearch toLowerCase handleWebSearch body = Status200 resp ->
  exists args out,
    validateSearch toLowerCase body = Valid args
    /\ handleWebSearch args = inr out
    /\ SearchResponse.results resp
       = List.map (formatSearchResult (WebSearchToolInput.maxContentLength args))
                  (WebSearchToolOutput.results out).
Proof.
  unfold apiSearch.
  destruct (validateSearch toLowerCase body) as [|args]; [discriminate|].
  destruct (handleWebSearch args) as [|out] eqn:H; [discriminate|].
  intros E. injection E as <-. exists args, out. auto.
Qed.

End Formatting.


(** A limit above 0 and below the length of the content passes
    validation as it is and cuts the content at its integer part: in a
    formatted result of /api/search whose full content is not blank, with
    [contentTruncated] true and [originalLength] the uncut length, and in
    the answer of /api/content.  For an integer limit the integer part is
    the limit itself. *)
Lemma truncation_by_caller (m : number) (content : jsstring)
    (Hpos : num_gt m (of_Z 0) = true)
    (Hlong : num_gt (of_nat (List.length content)) m = true) :
  exists q,
    m = Fin q
    /\ validateMaxContentLength (VNumber m) = Valid (Some m)
    /\ (forall r,
           SearchResult.fullContent r = content -> hasFull r = true ->
           Formatted.fullContent (formatSearchResult (Some m) r)
           = Some (firstn (Z.to_nat (Qfloor q)) content)
           /\ Formatted.contentTruncated (formatSearchResult (Some m) r)
              = Some true
           /\ Formatted.originalLength (formatSearchResult (Some m) r)
              = Some (List.length content))
    /\ (forall r,
           SearchResult.fullContent r = content -> hasFull r = false ->
           Formatted.fullContent (formatSearchResult (Some m) r) = None)
    /\ (forall url urlObj,
           ContentResponse.content (contentResponse url urlObj (Some m) content)
           = firstn (Z.to_nat (Qfloor q)) content
           /\ ContentResponse.contentTruncated
                (contentResponse url urlObj (Some m) content) = VBool true)
    /\ List.length (firstn (Z.to_nat (Qfloor q)) content) = Z.to_nat (Qfloor q)
    /\ (forall j, num_eq m (of_nat j) = true ->
                  List.length (firstn (Z.to_nat (Qfloor q)) content) = j).
Proof.
  destruct (overLimit_positive m (List.length content) Hpos Hlong)
    as [T [q [-> [P L]]]].
  destruct (substringTo_floor content q P L) as [S Len].
  exists q. split; [reflexivity|]. split; [now apply validateMaxContentLength_positive|].
  split; [|split; [|split; [|split]]].
  - intros r <- F.
    rewrite format_fullContent, format_contentTruncated, format_originalLength.
    rewrite F, T, S. auto.
  - intros r <- F. rewrite format_fullContent, F. reflexivity.
  - intros url urlObj. unfold contentResponse. cbn [ContentResponse.content
      ContentResponse.contentTruncated]. rewrite T, S. split; [reflexivity|].
    unfold overLimit in *. destruct (num_truthy (Fin q)) eqn:NT.
    + cbn [truthy] in T. now rewrite T.
    + cbn [truthy] in T. congruence.
  - exact Len.
  - intros j E. rewrite Len. now apply floor_of_integer.
Qed.

Section Records.

Lemma format_exclusive m r :
  Formatted.fullContent (formatSearchResult m r) = None
  \/ Formatted.contentPreview (formatSearchResult m r) = None.
Proof.
  rewrite format_fullContent, format_contentPreview.
  destruct (hasFull r); auto.
Qed.

Lemma format_error_iff m r e :
  Formatted.error (formatSearchResult m r) = Some e
  <-> SearchResult.fetchStatus r = FetchError /\ carriesError r e.
Proof.
  rewrite format_error. unfold carriesError.
  destruct (SearchResult.error r) as [e'|].
  - destruct (SearchResult.fetchStatus r); cbn [FetchStatus_eqb andb];
      try (split; [discriminate | intros [? _]; discriminate]).
    destruct e' as [|c e']; cbn [str_truthy].
    + split; [discriminate|]. intros [_ [E N]]. injection E as <-. congruence.
    + split.
      * intros E. injection E as <-. repeat split; auto. discriminate.
      * intros [_ [E _]]. exact E.
  - split; [discriminate|]. intros [_ [E _]]. discriminate.
Qed.

Lemma format_error_timeout m r :
  SearchResult.fetchStatus r = FetchTimeout ->
  Formatted.error (formatSearchResult m r) = None.
Proof.
  intros T. rewrite format_error, T.
  destruct (SearchResult.error r); reflexivity.
Qed.

Lemma Forall2_map_right {A B} (R : A -> B -> Prop) (f : A -> B) (l : list A) :
  (forall x, R x (f x)) -> Forall2 R l (List.map f l).
Proof. intros H. induction l; simpl; constructor; auto. Qed.

End Records.

(** C6.  In every result record of a 200 answer of /api/search,
    [fullContent] and [contentPreview] are not both populated. *)
Theorem search_content_fields_exclusive
    (toLowerCase : jsstring -> jsstring)
    (handleWebSearch : WebSearchToolInput.t -> jsstring + WebSearchToolOutput.t)
    (body : Body.t) :
  match apiSearch toLowerCase handleWebSearch body with
  | Status200 resp =>
      Forall (fun f => Formatted.fullContent f = None
                       \/ Formatted.contentPreview f = None)
             (SearchResponse.results resp)
  | _ => True
  end.
Proof.
  destruct (apiSearch toLowerCase handleWebSearch body) as [| |resp] eqn:E; auto.
  apply apiSearch_200 in E as [args [out [_ [_ ->]]]].
  apply Forall_map, Forall_forall. intros r _. apply format_exclusive.
Qed.

(** C10.  In a 200 answer of /api/search, each result record comes from
    one record of the search, in order, and carries an error string [e] if
    and only if that record's [fetchStatus] is 'error' and it carries the
    error [e] (a non-empty string); a record whose [fetchStatus] is
    'timeout' has no error string in the answer. *)
Theorem search_error_exposure
    (toLowerCase : jsstring -> jsstring)
    (handleWebSearch : WebSearchToolInput.t -> jsstring + WebSearchToolOutput.t)
    (body : Body.t) :
  match apiSearch toLowerCase handleWebSearch body with
  | Status200 resp =>
      exists args out,
        handleWebSearch args = inr out
        /\ Forall2
             (fun r f =>
                (forall e, Formatted.error f = Some e
                           <-> SearchResult.fetchStatus r = FetchError
                               /\ carriesError r e)
                /\ (SearchResult.fetchStatus r = FetchTimeout ->
                    Formatted.error f = None))
             (WebSearchToolOutput.results out) (SearchResponse.results resp)
  | _ => True
  end.
Proof.
  destruct (apiSearch toLowerCase handleWebSearch body) as [| |resp] eqn:E; auto.
  apply apiSearch_200 in E as [args [out [_ [H ->]]]].
  exists args, out. split; [exact H|].
  apply Forall2_map_right. intros r. split.
  - intros e. apply format_error_iff.
  - apply format_error_timeout.
Qed.

(** C9.  A [maxContentLength] of 0 (the number, or a string that
    [parseInt] reads as 0) passes validation and is normalized to
    undefined; /api/search and /api/content answer the request exactly as
    they answer it without the field; and with the limit undefined the
    returned content is never cut: a formatted result has no
    [contentTruncated] and its [fullContent], when present, is the whole
    content, and the /api/content answer holds the whole extracted text. *)
Theorem zero_maxContentLength_is_no_limit
    (toLowerCase : jsstring -> jsstring) (parseURL : jsstring -> option URL)
    (handleWebSearch : WebSearchToolInput.t -> jsstring + WebSearchToolOutput.t)
    (extractContent : ContentExtractionOptions.t -> thrown + jsstring)
    (body : Body.t) (q : Q)
    (Hzero : (q == 0)%Q)
    (Hfield : parseIfString (Body.maxContentLength body) = VNumber (Fin q)) :
  validateMaxContentLength (Body.maxContentLength body) = Valid None
  /\ apiSearch toLowerCase handleWebSearch body
     = apiSearch toLowerCase handleWebSearch
         (Body.withMaxContentLength VUndefined body)
  /\ apiContent parseURL extractContent body
     = apiContent parseURL extractContent
         (Body.withMaxContentLength VUndefined body)
  /\ (forall r,
         Formatted.contentTruncated (formatSearchResult None r) = None
         /\ (Formatted.fullContent (formatSearchResult None r) = None
             \/ Formatted.fullContent (formatSearchResult None r)
                = Some (SearchResult.fullContent r)))
  /\ (forall url urlObj content,
         ContentResponse.content (contentResponse url urlObj None content)
         = content
         /\ truthy (ContentResponse.contentTruncated
                      (contentResponse url urlObj None content)) = false).
Proof.
  pose proof (validateMaxContentLength_zero _ q Hfield Hzero) as V.
  split; [exact V|]. split; [|split; [|split]].
  - unfold apiSearch, validateSearch, requestedLimit.
    cbn [Body.withMaxContentLength Body.query Body.limit Body.includeContent
         Body.maxContentLength Body.domains].
    rewrite V. reflexivity.
  - unfold apiContent, validateContent.
    cbn [Body.withMaxContentLength Body.url Body.maxContentLength].
    rewrite V. reflexivity.
  - intros r. rewrite format_contentTruncated, format_fullContent.
    rewrite overLimit_None, andb_false_r. destruct (hasFull r); auto.
  - intros url urlObj content. split; reflexivity.
Qed.

(** C9 for a request whose [maxContentLength] is the number 0. *)
Lemma zero_maxContentLength_is_no_limit_witness :
  (0 == 0)%Q
  /\ parseIfString
       (Body.maxContentLength (Basic.request VUndefined (VNumber (of_Z 0))))
     = VNumber (Fin 0)
  /\ apiSearch Basic.toLowerCase Basic.handleWebSearch
       (Basic.request VUndefined (VNumber (of_Z 0)))
     = apiSearch Basic.toLowerCase Basic.handleWebSearch
         (Basic.request VUndefined VUndefined)
  /\ apiContent Basic.parseURL Basic.extractContent
       (Basic.request VUndefined (VNumber (of_Z 0)))
     = apiContent Basic.parseURL Basic.extractContent
         (Basic.request VUndefined VUndefined).
Proof.
  destruct (zero_maxContentLength_is_no_limit Basic.toLowerCase Basic.parseURL
              Basic.handleWebSearch Basic.extractContent
              (Basic.request VUndefined (VNumber (of_Z 0))) 0
              (Qeq_refl 0) eq_refl) as [_ [S [C _]]].
  split; [apply Qeq_refl|]. split; [reflexivity|].
  split; [exact S | exact C].
Defined.


(* ================================================================== *)
(** * Further properties of src/utils.ts *)
(* ================================================================== *)

Section Words.

Lemma wordsOf_cons (x : jsstring) xs :
  wordsOf (x :: xs) = (if 0 <? List.length x then 1 else 0) + wordsOf xs.
Proof. unfold wordsOf. simpl. destruct (0 <? List.length x); reflexivity. Qed.

Lemma splitWs_from_words (s : jsstring) :
  wordsOf (splitWs_from true s) = countWords_from true s
  /\ wordsOf (tl (splitWs_from false s)) = countWords_from false s.
Proof.
  induction s as [|c s [IHa IHb]]; [split; reflexivity|].
  cbn [splitWs_from countWords_from]. destruct (is_ws c).
  - split; [exact IHa|]. cbn [tl]. exact IHa.
  - destruct (splitWs_from false s) as [|x xs]; cbn [tl] in *.
    + rewrite <- IHb. split; reflexivity.
    + rewrite wordsOf_cons. cbn [List.length Nat.ltb Nat.leb].
      rewrite <- IHb. split; reflexivity.
Qed.

Lemma splitWs_words (s : jsstring) : wordsOf (splitWs s) = countWords s.
Proof.
  unfold splitWs, countWords. destruct s as [|c s]; [reflexivity|].
  cbn [splitWs_from countWords_from]. destruct (is_ws c).
  - rewrite wordsOf_cons. cbn. apply splitWs_from_words.
  - pose proof (proj2 (splitWs_from_words s)) as T.
    destruct (splitWs_from false s) as [|x xs]; cbn [tl] in T.
    + rewrite <- T. reflexivity.
    + rewrite wordsOf_cons. cbn [List.length Nat.ltb Nat.leb]. now rewrite <- T.
Qed.

Lemma countWords_from_dropWhile (s : jsstring) :
  countWords_from true (dropWhile is_ws s) = countWords_from true s.
Proof.
  induction s as [|c s IH]; [reflexivity|].
  cbn [dropWhile countWords_from]. destruct (is_ws c) eqn:W; [exact IH|].
  cbn [countWords_from]. now rewrite W.
Qed.

Lemma countWords_from_app_ws (s w : jsstring) :
  forallb is_ws w = true ->
  forall b, countWords_from b (s ++ w) = countWords_from b s.
Proof.
  intros F. induction s as [|c s IH]; intros b.
  - simpl. revert b. induction w as [|c w IHw]; intros b; [reflexivity|].
    simpl in F. apply andb_prop in F as [W F]. cbn [countWords_from].
    rewrite W. now apply IHw.
  - cbn [app countWords_from]. destruct (is_ws c); now rewrite IH.
Qed.

Lemma countWords_trim (s : jsstring) : countWords (trim s) = countWords s.
Proof.
  unfold trim, trimStart, countWords.
  rewrite <- (countWords_from_dropWhile s).
  destruct (trimEnd_prefix (dropWhile is_ws s)) as [w [E F]].
  rewrite E at 2. now rewrite countWords_from_app_ws.
Qed.

Lemma getWordCount_countWords (text : jsstring) :
  getWordCount text = countWords text.
Proof.
  unfold getWordCount. fold (wordsOf (splitWs (trim text))).
  now rewrite splitWs_words, countWords_trim.
Qed.

Lemma countWords_from_zero (s : jsstring) :
  countWords_from true s = 0 <-> forallb is_ws s = true.
Proof.
  induction s as [|c s IH]; [simpl; tauto|].
  cbn [countWords_from forallb]. destruct (is_ws c); [exact IH|].
  simpl. split; [lia|discriminate].
Qed.

Lemma countWords_from_replaceWsRuns (s : jsstring) :
  (forall b, countWords_from true (replaceWsRuns_from b s)
             = countWords_from true s)
  /\ countWords_from false (replaceWsRuns_from false s)
     = countWords_from false s.
Proof.
  induction s as [|c s [IHa IHb]]; [split; reflexivity|].
  cbn [replaceWsRuns_from countWords_from]. destruct (is_ws c) eqn:W.
  - split.
    + intros [|]; [apply IHa|]. cbn [countWords_from].
      rewrite is_ws_SPACE. apply IHa.
    + cbn [countWords_from]. rewrite is_ws_SPACE. apply IHa.
  - cbn [countWords_from]. rewrite W. split; [intros _|]; now rewrite IHb.
Qed.

Lemma countWords_from_prefix (s1 s2 : jsstring) :
  forall b, countWords_from b s1 <= countWords_from b (s1 ++ s2).
Proof.
  induction s1 as [|c s1 IH]; intros b; [simpl; lia|].
  cbn [app countWords_from]. destruct (is_ws c).
  - apply IH.
  - specialize (IH false). lia.
Qed.

End Words.

(** X1.  [getWordCount text] is the number of words of [text]: the number
    of places where a run of code units that are not white space starts. *)
Theorem getWordCount_counts_words (text : jsstring) :
  getWordCount text = countWords text.
Proof. apply getWordCount_countWords. Qed.

(** X2.  [getWordCount text] is 0 exactly when [text] is empty or white
    space only. *)
Theorem getWordCount_zero_iff_blank (text : jsstring) :
  getWordCount text = 0 <-> forallb is_ws text = true.
Proof. rewrite getWordCount_countWords. apply countWords_from_zero. Qed.

(** X3.  The word count that /api/content computes on the extracted text
    (a split on white space with no trim before it) is [getWordCount] of
    that text. *)
Theorem contentWordCount_is_getWordCount (content : jsstring) :
  contentWordCount content = getWordCount content.
Proof.
  rewrite getWordCount_countWords. unfold contentWordCount.
  fold (wordsOf (splitWs content)). apply splitWs_words.
Qed.

(** X4.  Cleaning never adds words: [cleanText text m] has at most the
    words of [text], and exactly as many when the cut at [m] removes
    nothing. *)
Theorem cleanText_keeps_words (text : jsstring) (m : number) :
  getWordCount (cleanText text m) <= getWordCount text
  /\ (cleanText text m = trim (replaceWsRuns text) ->
      getWordCount (cleanText text m) = getWordCount text).
Proof.
  rewrite !getWordCount_countWords.
  assert (B : countWords (trim (replaceWsRuns text)) = countWords text).
  { rewrite countWords_trim. apply countWords_from_replaceWsRuns. }
  split.
  - rewrite <- B, cleanText_cut, beforeCut_trims.
    set (u := trim (replaceWsRuns text)).
    set (k := clampIndex (ToIntegerOrInfinity m) (List.length u)).
    pose proof (countWords_from_prefix (firstn k u) (skipn k u) true) as P.
    now rewrite firstn_skipn in P.
  - intros ->. exact B.
Qed.

Section Bounds.

Lemma num_le_Fin p q : num_le (Fin p) (Fin q) = true <-> (p <= q)%Q.
Proof.
  unfold num_le. rewrite negb_true_iff. apply num_lt_Fin_false.
Qed.

Lemma Qtrunc_le_nat q n : (q <= inject_Z (Z.of_nat n))%Q -> Z.to_nat (Qtrunc q) <= n.
Proof.
  intros H. unfold Qtrunc. destruct (Qle_bool 0 q) eqn:E.
  - apply Qfloor_resp_le in H. rewrite Qfloor_Z in H. lia.
  - assert (L : (q <= 0)%Q).
    { apply Qlt_le_weak, Qnot_le_lt. intros L. apply Qle_bool_iff in L.
      congruence. }
    apply Qceiling_resp_le in L. change (Qceiling 0) with 0%Z in L. lia.
Qed.

(** A cut at [m] leaves at most [n] code units when [m <= n]. *)
Lemma clampIndex_bound (m : number) (n len : nat) :
  num_le m (of_nat n) = true ->
  clampIndex (ToIntegerOrInfinity m) len <= n.
Proof.
  destruct m as [| | |q]; try discriminate; cbn [ToIntegerOrInfinity clampIndex];
    [lia|].
  intros H. apply num_le_Fin in H. apply Qtrunc_le_nat in H. lia.
Qed.

Lemma substring_from_0_bound (s : jsstring) (m : number) (n : nat) :
  num_le m (of_nat n) = true -> List.length (substring s (of_Z 0) m) <= n.
Proof.
  intros H. rewrite substring_from_0, length_firstn.
  pose proof (clampIndex_bound m n (List.length s) H). lia.
Qed.

Lemma substring_from_0_prefix (s : jsstring) (m : number) :
  prefixOf (substring s (of_Z 0) m) s.
Proof.
  rewrite substring_from_0.
  exists (skipn (clampIndex (ToIntegerOrInfinity m) (List.length s)) s).
  now rewrite firstn_skipn.
Qed.

Lemma trim_startsInWs (v : jsstring) : startsInWs (trim v) = false.
Proof.
  unfold trim, trimStart.
  pose proof (dropWhile_head is_ws v) as Hd.
  destruct (trimEnd_prefix (dropWhile is_ws v)) as [w [E _]].
  destruct (trimEnd (dropWhile is_ws v)) as [|c r]; [reflexivity|].
  rewrite E in Hd. exact Hd.
Qed.

Lemma prefix_startsInWs (a b : jsstring) :
  prefixOf a b -> startsInWs b = false -> startsInWs a = false.
Proof. intros [rest ->]. destruct a; auto. Qed.

Lemma collapsed_no_double_space (s a b : jsstring) :
  collapsed s = true -> s <> a ++ SPACE :: SPACE :: b.
Proof.
  intros C ->. unfold collapsed in C. apply collapsed_from_app in C as [_ C].
  discriminate.
Qed.

End Bounds.

(** X5.  The text [cleanText] returns has no white space other than single
    spaces: every white-space code unit in it is U+0020, no two spaces
    follow each other, and it does not start with one; and it is at most
    [n] code units long whenever [maxLength <= n]. *)
Theorem cleanText_shape (text : jsstring) (m : number) :
  (forall c, In c (cleanText text m) -> is_ws c = true -> c = SPACE)
  /\ (forall a b, cleanText text m <> a ++ SPACE :: SPACE :: b)
  /\ startsInWs (cleanText text m) = false
  /\ (forall n, num_le m (of_nat n) = true ->
                List.length (cleanText text m) <= n).
Proof.
  destruct (cleanText_collapsed text m) as [C S].
  split; [|split; [|split]]; auto.
  - intros c I W. exact (collapsed_from_ws _ false c C I W).
  - intros a b. now apply collapsed_no_double_space.
  - intros n H. now apply substring_from_0_bound.
Qed.

(** X6.  Inside [cleanText] the replacement of blank lines never changes
    the text: after the first replacement no newline is left, so
    [cleanText] is the cut of the trimmed, white-space-collapsed text. *)
Theorem cleanText_blank_line_step_idle (text : jsstring) :
  replaceBlankLines (replaceWsRuns text) = replaceWsRuns text
  /\ ~ In NEWLINE (replaceWsRuns text)
  /\ forall m, cleanText text m
               = substring (trim (replaceWsRuns text)) (of_Z 0) m.
Proof.
  assert (N : ~ In NEWLINE (replaceWsRuns text)).
  { apply (collapsed_from_no_newline _ false).
    apply replaceWsRuns_from_collapsed. auto. }
  split; [now apply replaceBlankLines_no_newline|]. split; [exact N|].
  intros m. unfold cleanText. now rewrite replaceBlankLines_no_newline.
Qed.

(** X7.  A preview starts with the cleaned text and is at most [n + 3]
    code units long whenever [maxLength <= n]. *)
Theorem getContentPreview_bound (text : jsstring) (m : number) :
  prefixOf (cleanText text m) (getContentPreview text m)
  /\ (forall n, num_le m (of_nat n) = true ->
                List.length (getContentPreview text m) <= n + 3).
Proof.
  unfold getContentPreview.
  destruct (num_eq (of_nat (List.length (cleanText text m))) m); split.
  - now exists ELLIPSIS.
  - intros n H. rewrite length_app. change (List.length ELLIPSIS) with 3.
    pose proof (substring_from_0_bound
                  (trim (replaceBlankLines (replaceWsRuns text))) m n H) as B.
    unfold cleanText. lia.
  - exists []. now rewrite app_nil_r.
  - intros n H.
    pose proof (substring_from_0_bound
                  (trim (replaceBlankLines (replaceWsRuns text))) m n H) as B.
    unfold cleanText. lia.
Qed.

(** X8.  [sanitizeQuery query] is the beginning of the trimmed query, at
    most 1000 code units of it: it never starts with white space, and it is
    the whole trimmed query when that has at most 1000 code units. *)
Theorem sanitizeQuery_spec (query : jsstring) :
  prefixOf (sanitizeQuery query) (trim query)
  /\ List.length (sanitizeQuery query) <= 1000
  /\ startsInWs (sanitizeQuery query) = false
  /\ (List.length (trim query) <= 1000 -> sanitizeQuery query = trim query).
Proof.
  unfold sanitizeQuery.
  pose proof (substring_from_0_prefix (trim query) (of_Z 1000)) as P.
  split; [exact P|]. split; [|split].
  - apply substring_from_0_bound. reflexivity.
  - eapply prefix_startsInWs; [exact P|apply trim_startsInWs].
  - intros L. rewrite substring_from_0.
    change (ToIntegerOrInfinity (of_Z 1000)) with (Integer 1000).
    apply firstn_all2. cbn [clampIndex]. lia.
Qed.

Section BlankLines.

Lemma afterLastNewline_go (t : jsstring) :
  afterLastNewline t = None ->
  forall fuel, List.length t <= fuel ->
               afterLastNewline (replaceBlankLines_go fuel t) = None.
Proof.
  induction t as [|c t IH]; intros A fuel L; destruct fuel as [|fuel];
    simpl in L; try lia; try reflexivity.
  cbn [afterLastNewline] in A. cbn [replaceBlankLines_go].
  destruct (is_ws c) eqn:W.
  - destruct (afterLastNewline t) as [x|] eqn:E; [discriminate|].
    destruct (c =? NEWLINE)%N eqn:Nl; [discriminate|].
    cbn [afterLastNewline]. rewrite W, Nl, IH; auto. lia.
  - destruct (N.eqb_spec c NEWLINE) as [->|_]; [discriminate|].
    cbn [afterLastNewline]. now rewrite W.
Qed.

Lemma afterLastNewline_rest (r t : jsstring) :
  afterLastNewline r = Some t -> afterLastNewline t = None.
Proof.
  revert t. induction r as [|c r IH]; intros t; cbn [afterLastNewline];
    [discriminate|].
  destruct (is_ws c); [|discriminate].
  destruct (afterLastNewline r) as [x|] eqn:E.
  - intros H. injection H as <-. now apply IH.
  - destruct (c =? NEWLINE)%N; [|discriminate]. intros H. now injection H as <-.
Qed.

Lemma replaceBlankLines_go_blankFree (n : nat) :
  forall (s : jsstring) fuel,
    List.length s <= n -> List.length s <= fuel ->
    blankFree (replaceBlankLines_go fuel s) = true.
Proof.
  induction n as [|n IH]; intros s fuel Ln L.
  - destruct s; [|simpl in Ln; lia]. destruct fuel; reflexivity.
  - destruct s as [|c r]; [destruct fuel; reflexivity|].
    simpl in Ln, L. destruct fuel as [|fuel]; [lia|].
    cbn [replaceBlankLines_go].
    destruct (N.eqb_spec c NEWLINE) as [->|ne].
    + destruct (afterLastNewline r) as [t|] eqn:E.
      * pose proof (afterLastNewline_shorter r t E) as S.
        cbn [blankFree]. rewrite N.eqb_refl.
        rewrite (afterLastNewline_go t (afterLastNewline_rest r t E)) by lia.
        apply IH; lia.
      * cbn [blankFree]. rewrite N.eqb_refl.
        rewrite (afterLastNewline_go r E) by lia.
        apply IH; lia.
    + cbn [blankFree]. apply N.eqb_neq in ne. rewrite ne. apply IH; lia.
Qed.

Lemma replaceBlankLines_go_fixed (s : jsstring) :
  blankFree s = true ->
  forall fuel, List.length s <= fuel -> replaceBlankLines_go fuel s = s.
Proof.
  induction s as [|c r IH]; intros B fuel L; destruct fuel as [|fuel];
    simpl in L; try lia; try reflexivity.
  cbn [blankFree] in B. apply andb_prop in B as [B1 B2].
  cbn [replaceBlankLines_go].
  destruct (c =? NEWLINE)%N.
  - destruct (afterLastNewline r); [discriminate|]. rewrite IH; auto. lia.
  - rewrite IH; auto. lia.
Qed.

End BlankLines.

(** X9.  The replacement of blank lines, [s.replace(/\n\s*\n/g, '\n')],
    leaves no blank line behind, changes nothing in a text that has none,
    and so gives the same text when applied twice. *)
Theorem replaceBlankLines_idempotent (s : jsstring) :
  blankFree (replaceBlankLines s) = true
  /\ (blankFree s = true -> replaceBlankLines s = s)
  /\ replaceBlankLines (replaceBlankLines s) = replaceBlankLines s.
Proof.
  assert (B : blankFree (replaceBlankLines s) = true)
    by (apply (replaceBlankLines_go_blankFree (List.length s)); lia).
  split; [exact B|]. split.
  - intros H. now apply replaceBlankLines_go_fixed.
  - now apply replaceBlankLines_go_fixed.
Qed.

Lemma cutAtFirst_not_In c (s : jsstring) : ~ In c (cutAtFirst c s).
Proof.
  induction s as [|x s IH]; simpl; [tauto|].
  destruct (N.eqb_spec x c) as [->|ne]; simpl; [tauto|]. intros [E|I]; auto.
Qed.

Lemma cutAtFirst_In c x (s : jsstring) : In x (cutAtFirst c s) -> In x s.
Proof.
  induction s as [|y s IH]; simpl; [tauto|].
  destruct (y =? c)%N; simpl; [tauto|]. intros [E|I]; auto.
Qed.

Lemma existsb_str_eqb (x : jsstring) (l : list jsstring) :
  existsb (fun allowed => str_eqb allowed x) l = true <-> In x l.
Proof.
  rewrite existsb_exists. split.
  - intros [y [I E]]. apply str_eqb_eq in E. now subst.
  - intros I. exists x. split; [exact I|apply str_eqb_refl].
Qed.

Lemma siteClause_mentions (d : jsstring) (ds : list jsstring) :
  In d ds -> exists a b, siteClause ds = a ++ str "site:" ++ d ++ b.
Proof.
  induction ds as [|x ds IH]; [contradiction|].
  intros [->|I].
  - exists []. destruct ds as [|y ds].
    + exists []. cbn [siteClause]. now rewrite app_nil_r.
    + exists (str " OR " ++ siteClause (y :: ds)). reflexivity.
  - destruct (IH I) as [a [b E]]. destruct ds as [|y ds]; [contradiction|].
    exists (str "site:" ++ x ++ str " OR " ++ a), b.
    cbn [siteClause] in *. rewrite E. now rewrite <- !app_assoc.
Qed.

Section MoreDomains.

Variable toLowerCase : jsstring -> jsstring.
Variable parseURL : jsstring -> option URL.

Lemma normalizeDomain_no_separator (domain : jsstring) :
  ~ In SLASH (normalizeDomain toLowerCase domain)
  /\ ~ In COLON (normalizeDomain toLowerCase domain).
Proof.
  unfold normalizeDomain. rewrite !splitFirst_spec. split.
  - intros I. apply cutAtFirst_In in I. now apply cutAtFirst_not_In in I.
  - apply cutAtFirst_not_In.
Qed.

Lemma extractDomainFromUrl_no_separator (url : jsstring) :
  ~ In SLASH (extractDomainFromUrl toLowerCase parseURL url)
  /\ ~ In COLON (extractDomainFromUrl toLowerCase parseURL url).
Proof.
  unfold extractDomainFromUrl.
  destruct (parseURL url); apply normalizeDomain_no_separator.
Qed.

Lemma urlMatchesDomain_In (url : jsstring) (allowed : list jsstring) :
  allowed <> [] ->
  (urlMatchesDomain toLowerCase parseURL url allowed = true
   <-> In (extractDomainFromUrl toLowerCase parseURL url) allowed).
Proof.
  intros N. unfold urlMatchesDomain.
  destruct allowed as [|a l]; [congruence|].
  cbn [List.length Nat.eqb]. apply existsb_str_eqb.
Qed.

End MoreDomains.

(** X10.  A normalized domain holds no "/" and no ":", and neither does the
    domain [extractDomainFromUrl] gives for a URL, parsed or not. *)
Theorem normalized_domain_has_no_path_or_port
    (toLowerCase : jsstring -> jsstring) (parseURL : jsstring -> option URL)
    (s : jsstring) :
  ~ In SLASH (normalizeDomain toLowerCase s)
  /\ ~ In COLON (normalizeDomain toLowerCase s)
  /\ ~ In SLASH (extractDomainFromUrl toLowerCase parseURL s)
  /\ ~ In COLON (extractDomainFromUrl toLowerCase parseURL s).
Proof.
  destruct (normalizeDomain_no_separator toLowerCase s).
  destruct (extractDomainFromUrl_no_separator toLowerCase parseURL s).
  auto.
Qed.

(** X11.  [urlMatchesDomain]: with an empty allow-list every URL matches;
    with a non-empty one a URL matches exactly when the domain extracted
    from it is an entry of the list, so adding entries to a non-empty list
    never loses a match. *)
Theorem urlMatchesDomain_spec
    (toLowerCase : jsstring -> jsstring) (parseURL : jsstring -> option URL)
    (url : jsstring) :
  urlMatchesDomain toLowerCase parseURL url [] = true
  /\ (forall allowed,
         allowed <> [] ->
         (urlMatchesDomain toLowerCase parseURL url allowed = true
          <-> In (extractDomainFromUrl toLowerCase parseURL url) allowed))
  /\ (forall allowed more,
         allowed <> [] ->
         urlMatchesDomain toLowerCase parseURL url allowed = true ->
         urlMatchesDomain toLowerCase parseURL url (allowed ++ more) = true).
Proof.
  split; [reflexivity|]. split.
  - intros allowed N. now apply urlMatchesDomain_In.
  - intros allowed more N M.
    apply urlMatchesDomain_In in M; auto.
    apply urlMatchesDomain_In.
    + destruct allowed; [congruence|discriminate].
    + apply in_or_app. auto.
Qed.

(** X12.  The entries of the allow-list are compared as they are given: an
    entry that holds a "/" or a ":" (one that still carries its protocol,
    port or path) matches no URL, and a non-empty list of such entries
    rejects every URL. *)
Theorem urlMatchesDomain_needs_normalized_entries
    (toLowerCase : jsstring -> jsstring) (parseURL : jsstring -> option URL)
    (url : jsstring) (allowed : list jsstring) :
  allowed <> [] ->
  (forall entry, In entry allowed -> In SLASH entry \/ In COLON entry) ->
  urlMatchesDomain toLowerCase parseURL url allowed = false.
Proof.
  intros N H. destruct (urlMatchesDomain _ _ url allowed) eqn:M; [|reflexivity].
  apply urlMatchesDomain_In in M; auto.
  destruct (extractDomainFromUrl_no_separator toLowerCase parseURL url) as [S C].
  destruct (H _ M); contradiction.
Qed.

Lemma urlMatchesDomain_needs_normalized_entries_witness :
  [str "https://example.com"] <> []
  /\ (forall entry, In entry [str "https://example.com"] ->
                    In SLASH entry \/ In COLON entry)
  /\ urlMatchesDomain Basic.toLowerCase Basic.parseURL
       (str "https://example.com/page") [str "https://example.com"] = false.
Proof.
  assert (N : [str "https://example.com"] <> []) by discriminate.
  assert (H : forall entry, In entry [str "https://example.com"] ->
                            In SLASH entry \/ In COLON entry).
  { intros entry [<-|[]]. left. vm_compute. tauto. }
  split; [exact N|]. split; [exact H|].
  apply (urlMatchesDomain_needs_normalized_entries
           Basic.toLowerCase Basic.parseURL (str "https://example.com/page")
           [str "https://example.com"] N H).
Defined.

(** X13.  [buildDomainFilteredQuery] never alters the query text: its result
    starts with the query, and is the query itself when no domain is left
    after normalisation; when the kept domains are within the threshold,
    each of them occurs in the result as "site:<domain>". *)
Theorem buildDomainFilteredQuery_keeps_query
    (toLowerCase : jsstring -> jsstring)
    (q : jsstring) (ds : list jsstring) (k : number) :
  prefixOf q (buildDomainFilteredQuery toLowerCase q ds k)
  /\ (keptDomains toLowerCase ds = [] ->
      buildDomainFilteredQuery toLowerCase q ds k = q)
  /\ (num_gt (of_nat (List.length (keptDomains toLowerCase ds))) k = false ->
      forall d, In d (keptDomains toLowerCase ds) ->
                exists a b, buildDomainFilteredQuery toLowerCase q ds k
                            = a ++ str "site:" ++ d ++ b).
Proof.
  rewrite buildDomainFilteredQuery_cases.
  destruct (keptDomains toLowerCase ds) as [|d1 [|d2 rest]] eqn:K.
  - split; [exists []; now rewrite app_nil_r|]. split; [reflexivity|].
    intros _ d [].
  - split; [|split; [discriminate|]].
    + destruct (num_gt (of_nat 1) k); [exists []; now rewrite app_nil_r|].
      now exists (str " site:" ++ d1).
    + cbn [List.length]. intros -> d [<-|[]].
      exists (q ++ str " "), []. rewrite app_nil_r, <- !app_assoc. reflexivity.
  - cbv zeta. split; [|split; [discriminate|]].
    + destruct (num_gt (of_nat (List.length (d1 :: d2 :: rest))) k);
        [exists []; now rewrite app_nil_r|].
      now exists (str " (" ++ siteClause (d1 :: d2 :: rest) ++ str ")").
    + intros -> d I.
      destruct (siteClause_mentions d (d1 :: d2 :: rest) I) as [a [b E]].
      exists (q ++ str " (" ++ a), (b ++ str ")").
      rewrite E, <- !app_assoc. reflexivity.
Qed.

(* ================================================================== *)
(** * Further properties of src/api.ts *)
(* ================================================================== *)

Lemma stringsOf_In (elems : list value) (s : jsstring) :
  In s (flat_map (fun d => match d with VString s => [s] | _ => [] end) elems)
  <-> In (VString s) elems.
Proof.
  rewrite in_flat_map. split.
  - intros [d [I H]]. destruct d; try contradiction.
    destruct H as [->|[]]. exact I.
  - intros I. exists (VString s). simpl. auto.
Qed.

(** X14.  The check of [domains] never rejects an array: entries that are
    not strings are dropped, and when no string is left the filter is
    absent.  A list it accepts is never empty and holds exactly the string
    entries of the array; every value that is not an array, [undefined]
    aside, is rejected. *)
Theorem validateDomains_spec (domains : value) :
  (forall elems, domains = VArray elems ->
                 exists r, validateDomains domains = Valid r)
  /\ (forall l, validateDomains domains = Valid (Some l) ->
                l <> []
                /\ exists elems, domains = VArray elems
                                 /\ forall s, In s l <-> In (VString s) elems)
  /\ (validateDomains domains = Valid None <->
      domains = VUndefined
      \/ exists elems, domains = VArray elems
                       /\ forall s, ~ In (VString s) elems)
  /\ ((exists m, validateDomains domains = BadRequest m) <->
      domains <> VUndefined /\ forall elems, domains <> VArray elems).
Proof.
  split; [|split; [|split]].
  - intros elems ->. cbn [validateDomains]. eauto.
  - intros l H. destruct domains as [| | | | |elems|]; try discriminate.
    cbn [validateDomains] in H.
    set (strings := flat_map _ elems) in *.
    pose proof (fun s => stringsOf_In elems s) as I. fold strings in I.
    destruct strings as [|x xs]; [discriminate|].
    injection H as <-. split; [discriminate|]. eauto.
  - split.
    + intros H. destruct domains as [| | | | |elems|]; try discriminate; auto.
      right. exists elems. split; [reflexivity|].
      cbn [validateDomains] in H.
      set (strings := flat_map _ elems) in *.
      pose proof (fun s => stringsOf_In elems s) as I. fold strings in I.
      destruct strings as [|x xs]; [|discriminate].
      intros s J. now apply I in J.
    + intros [->|[elems [-> N]]]; [reflexivity|].
      cbn [validateDomains].
      set (strings := flat_map _ elems) in *.
      pose proof (fun s => stringsOf_In elems s) as I. fold strings in I.
      destruct strings as [|x xs]; [reflexivity|].
      exfalso. apply (N x), I. simpl. auto.
  - split.
    + intros [m H]. destruct domains; try discriminate; split; congruence.
    + intros [U A]. destruct domains as [| | | | |elems|];
        cbn [validateDomains]; eauto; try congruence.
Qed.

Lemma validateDomains_Some (domains : value) l :
  validateDomains domains = Valid (Some l) -> l <> [].
Proof.
  destruct domains as [| | | | |elems|]; try discriminate.
  cbn [validateDomains]. set (strings := flat_map _ elems).
  destruct strings; [discriminate|]. intros H. injection H as <-. discriminate.
Qed.

Section Accepted.

Local Open Scope Q_scope.

Variable toLowerCase : jsstring -> jsstring.

Lemma validateRequiredString_Valid what v s :
  validateRequiredString what v = Valid s -> v = VString s /\ s <> [].
Proof.
  destruct v as [| | | |x| |]; try discriminate. cbn [validateRequiredString].
  destruct x; [discriminate|]. cbn. intros E. injection E as <-.
  split; [reflexivity|discriminate].
Qed.

Lemma positive_when_let_through (n m : number) :
  (if isNaN n || num_lt n (of_Z 0)
   then BadRequest (str "maxContentLength must be a non-negative number")
   else Valid (if num_eq n (of_Z 0) then None else Some n))
  = Valid (Some m) ->
  num_gt m (of_Z 0) = true.
Proof.
  destruct n as [| | |q]; cbn [isNaN orb]; try discriminate.
  - cbn. intros H. now injection H as <-.
  - destruct (num_lt (Fin q) (of_Z 0)) eqn:L; [discriminate|].
    destruct (num_eq (Fin q) (of_Z 0)) eqn:E; [discriminate|].
    intros H. injection H as <-. apply num_lt_Fin.
    apply num_lt_Fin_false in L. cbn [num_eq of_Z] in E.
    apply Qle_lt_or_eq in L as [L|L]; [exact L|].
    symmetry in L. apply Qeq_bool_iff in L. congruence.
Qed.

Lemma validateMaxContentLength_Valid v m :
  validateMaxContentLength v = Valid (Some m) -> num_gt m (of_Z 0) = true.
Proof.
  unfold validateMaxContentLength.
  destruct v as [| |b|n|s|l|]; try discriminate; cbn [parseIfString];
    apply positive_when_let_through.
Qed.

Lemma validateIncludeContent_bool v :
  v <> VUndefined -> exists b, validateIncludeContent toLowerCase v = VBool b.
Proof. destruct v; cbn; eauto. congruence. Qed.

(** What [validateSearch] lets through. *)
Lemma validateSearch_Valid (body : Body.t) args :
  validateSearch toLowerCase body = Valid args ->
  Body.query body = VString (WebSearchToolInput.query args)
  /\ WebSearchToolInput.query args <> []
  /\ (exists q, WebSearchToolInput.limit args = VNumber (Fin q))
  /\ (exists b, WebSearchToolInput.includeContent args = VBool b)
  /\ validateMaxContentLength (Body.maxContentLength body)
     = Valid (WebSearchToolInput.maxContentLength args)
  /\ validateDomains (Body.domains body)
     = Valid (WebSearchToolInput.domains args).
Proof.
  intros H. pose proof (validateSearch_limit toLowerCase body args H) as L.
  apply validateLimit_Valid in L as [q [L _]];
    [|apply requestedLimit_defined].
  revert H. unfold validateSearch, bind.
  destruct (validateRequiredString _ _) as [|s] eqn:Q; [discriminate|].
  destruct (validateLimit _); [discriminate|].
  destruct (validateMaxContentLength _) as [|m]; [discriminate|].
  destruct (validateDomains _) as [|d]; [discriminate|].
  intros E. injection E as <-. cbn in *.
  apply validateRequiredString_Valid in Q as [Q1 Q2].
  repeat split; eauto.
  apply validateIncludeContent_bool. destruct (Body.includeContent body);
    discriminate.
Qed.

Lemma typedInput_Some args q b :
  WebSearchToolInput.limit args = VNumber (Fin q) ->
  WebSearchToolInput.includeContent args = VBool b ->
  typedInput args
  = Some {| HandlerInput.query := WebSearchToolInput.query args;
            HandlerInput.limit := Some (Fin q);
            HandlerInput.includeContent := Some b;
            HandlerInput.domains := WebSearchToolInput.domains args |}.
Proof. intros L C. unfold typedInput. now rewrite L, C. Qed.

End Accepted.

(** X15.  Every request that /api/search accepts has a non-empty query
    string, a count that is a finite number, [includeContent] a boolean,
    [maxContentLength] absent or a number above 0, and [domains] absent or
    a non-empty list of strings: the arguments passed on have the types
    of the [WebSearchToolInput] interface. *)
Theorem validateSearch_gives_typed_arguments
    (toLowerCase : jsstring -> jsstring) (body : Body.t) :
  match validateSearch toLowerCase body with
  | Valid args =>
      WebSearchToolInput.query args <> []
      /\ (exists input, typedInput args = Some input
                        /\ (exists q, HandlerInput.limit input = Some (Fin q))
                        /\ (exists b, HandlerInput.includeContent input = Some b))
      /\ (forall m, WebSearchToolInput.maxContentLength args = Some m ->
                    num_gt m (of_Z 0) = true)
      /\ (forall l, WebSearchToolInput.domains args = Some l -> l <> [])
  | BadRequest _ => True
  end.
Proof.
  destruct (validateSearch toLowerCase body) as [|args] eqn:H; [exact I|].
  apply validateSearch_Valid in H as [_ [Q [[q L] [[b C] [M D]]]]].
  split; [exact Q|]. split; [|split].
  - eexists. split; [apply (typedInput_Some args q b L C)|].
    cbn. eauto.
  - intros m E. rewrite E in M. now apply validateMaxContentLength_Valid in M.
  - intros l E. rewrite E in D.
    now apply validateDomains_Some in D.
Qed.

Section Answers.

Local Open Scope Q_scope.

(** The test for a cut holds exactly for a finite limit above 0 and below
    the length, and the cut then leaves fewer code units than there were. *)
Lemma overLimit_truthy (m : option number) (content : jsstring) :
  truthy (overLimit m (List.length content)) = true ->
  prefixOf (substringTo content m) content
  /\ (List.length (substringTo content m) < List.length content)%nat.
Proof.
  destruct m as [n|]; [|discriminate]. unfold overLimit.
  destruct (num_truthy n) eqn:T.
  - cbn [truthy]. intros H. apply andb_prop in H as [P L].
    destruct (overLimit_positive n (List.length content) P L)
      as [_ [q [-> [Q1 Q2]]]].
    destruct (substringTo_floor content q Q1 Q2) as [S Len].
    rewrite S, Len. split.
    + exists (skipn (Z.to_nat (Qfloor q)) content). now rewrite firstn_skipn.
    + assert (B : (Qfloor q < Z.of_nat (List.length content))%Z).
      { rewrite Zlt_Qlt. eapply Qle_lt_trans; [apply Qfloor_le|exact Q2]. }
      assert (0 <= Qfloor q)%Z.
      { change 0%Z with (Qfloor 0). apply Qfloor_resp_le.
        now apply Qlt_le_weak. }
      lia.
  - cbn [truthy]. congruence.
Qed.

Ltac format_fields m r :=
  unfold formatSearchResult;
  destruct (str_truthy (SearchResult.fullContent r)
            && str_truthy (trim (SearchResult.fullContent r)));
  destruct (truthy (overLimit m (List.length (SearchResult.fullContent r))));
  destruct (str_truthy (SearchResult.contentPreview r)
            && str_truthy (trim (SearchResult.contentPreview r)));
  destruct (SearchResult.error r) as [e|];
  try destruct (FetchStatus_eqb (SearchResult.fetchStatus r) FetchError
                && str_truthy e);
  repeat split.

Lemma format_identity m r :
  Formatted.title (formatSearchResult m r) = SearchResult.title r
  /\ Formatted.url (formatSearchResult m r) = SearchResult.url r
  /\ Formatted.description (formatSearchResult m r) = SearchResult.description r
  /\ Formatted.timestamp (formatSearchResult m r) = SearchResult.timestamp r
  /\ Formatted.fetchStatus (formatSearchResult m r) = SearchResult.fetchStatus r.
Proof. format_fields m r. Qed.

Lemma format_wordCount m r :
  Formatted.wordCount (formatSearchResult m r)
  = if hasFull r then Some (SearchResult.wordCount r) else None.
Proof. unfold hasFull. format_fields m r. Qed.

End Answers.

(** X16.  A formatted result of /api/search copies the title, URL,
    description, timestamp and fetch status of the search result.  When it
    holds a [fullContent], that is the beginning of the extracted content
    and the word count comes with it; [contentTruncated] is true exactly
    when the returned content is shorter than the extracted one, and is
    never false; [originalLength] is only present beside it and is the
    length of the extracted content; a [contentPreview] is the search
    result's own. *)
Theorem formatSearchResult_invariants
    (m : option number) (r : SearchResult.t) :
  (Formatted.title (formatSearchResult m r) = SearchResult.title r
   /\ Formatted.url (formatSearchResult m r) = SearchResult.url r
   /\ Formatted.description (formatSearchResult m r)
      = SearchResult.description r
   /\ Formatted.timestamp (formatSearchResult m r) = SearchResult.timestamp r
   /\ Formatted.fetchStatus (formatSearchResult m r)
      = SearchResult.fetchStatus r)
  /\ (forall c, Formatted.fullContent (formatSearchResult m r) = Some c ->
                prefixOf c (SearchResult.fullContent r)
                /\ Formatted.wordCount (formatSearchResult m r)
                   = Some (SearchResult.wordCount r))
  /\ (Formatted.contentTruncated (formatSearchResult m r) = Some true
      <-> exists c, Formatted.fullContent (formatSearchResult m r) = Some c
                    /\ List.length c < List.length (SearchResult.fullContent r))
  /\ Formatted.contentTruncated (formatSearchResult m r) <> Some false
  /\ (forall n, Formatted.originalLength (formatSearchResult m r) = Some n ->
                n = List.length (SearchResult.fullContent r)
                /\ Formatted.contentTruncated (formatSearchResult m r)
                   = Some true)
  /\ (forall p, Formatted.contentPreview (formatSearchResult m r) = Some p ->
                p = SearchResult.contentPreview r).
Proof.
  split; [apply format_identity|].
  rewrite format_fullContent, format_wordCount, format_contentTruncated,
    format_originalLength, format_contentPreview.
  pose proof (overLimit_truthy m (SearchResult.fullContent r)) as O.
  destruct (hasFull r); cbn [andb];
    [destruct (truthy (overLimit m (List.length (SearchResult.fullContent r))))|];
    (split; [|split; [|split; [|split]]]).
  - intros c E. injection E as <-. now destruct (O eq_refl).
  - split; [|reflexivity]. intros _. destruct (O eq_refl). eauto.
  - discriminate.
  - intros n E. now injection E as <-.
  - discriminate.
  - intros c E. injection E as <-. split; [|reflexivity].
    exists []. now rewrite app_nil_r.
  - split; [discriminate|]. intros [c [E L]]. injection E as <-. lia.
  - discriminate.
  - discriminate.
  - discriminate.
  - discriminate.
  - split; [discriminate|]. intros [c [E _]]. discriminate.
  - discriminate.
  - discriminate.
  - destruct (str_truthy (SearchResult.contentPreview r)
              && str_truthy (trim (SearchResult.contentPreview r)));
      intros p E; [now injection E as <-|discriminate].
Qed.

(** X17.  The answer of /api/content returns the beginning of the
    extracted text and reports the length of the whole of it as
    [originalLength]; its [contentTruncated] holds (is truthy) exactly when
    what is returned is shorter than what was extracted. *)
Theorem contentResponse_invariants
    (url : jsstring) (urlObj : URL) (m : option number) (content : jsstring) :
  prefixOf (ContentResponse.content (contentResponse url urlObj m content))
           content
  /\ ContentResponse.originalLength (contentResponse url urlObj m content)
     = List.length content
  /\ (truthy (ContentResponse.contentTruncated
                (contentResponse url urlObj m content)) = true
      <-> List.length
            (ContentResponse.content (contentResponse url urlObj m content))
          < List.length content)
  /\ ContentResponse.url (contentResponse url urlObj m content) = url
  /\ ContentResponse.title (contentResponse url urlObj m content)
     = hostname urlObj ++ pathname urlObj.
Proof.
  unfold contentResponse.
  cbn [ContentResponse.content ContentResponse.originalLength
       ContentResponse.contentTruncated ContentResponse.url
       ContentResponse.title].
  pose proof (overLimit_truthy m content) as O.
  destruct (truthy (overLimit m (List.length content)));
    (split; [|split; [reflexivity|split; [|split; reflexivity]]]).
  - now destruct (O eq_refl).
  - split; [|reflexivity]. intros _. now destruct (O eq_refl).
  - exists []. now rewrite app_nil_r.
  - split; [discriminate|lia].
Qed.

Section SearchLimit.

Local Open Scope Q_scope.

Variable fl : Q -> number.
Hypothesis fl_monotone : forall p q, p <= q -> num_le (fl p) (fl q) = true.

Lemma Math_min_10 (q : Q) (y : number) :
  q <= 10 -> num_le (Fin q) y = true ->
  num_le (Fin q) (Math_min y (of_Z 10)) = true
  /\ num_le (Math_min y (of_Z 10)) (of_Z 10) = true.
Proof.
  intros Q L. destruct y as [| | |a]; try discriminate.
  - cbn. split; [now apply num_le_Fin|reflexivity].
  - unfold Math_min, of_Z.
    destruct (num_lt (Fin (inject_Z 10)) (Fin a)) eqn:E.
    + split; [now apply num_le_Fin|reflexivity].
    + split; [exact L|]. unfold num_le. now rewrite E.
Qed.

Lemma num_mul_grows (q c : Q) :
  fl q = Fin q -> 0 <= q -> 1 <= c ->
  num_le (Fin q) (num_mul fl (Fin q) (Fin c)) = true.
Proof.
  intros E Q C. cbn [num_mul]. rewrite <- E. apply fl_monotone.
  rewrite <- (Qmult_1_l q) at 1. rewrite (Qmult_comm q c).
  now apply Qmult_le_compat_r.
Qed.

Lemma num_add_grows (q c : Q) (x : number) :
  fl q = Fin q -> 0 <= c -> num_le (Fin q) x = true ->
  num_le (Fin q) (num_add fl x (Fin c)) = true.
Proof.
  intros E C L. destruct x as [| | |a]; try discriminate; [reflexivity|].
  cbn [num_add]. rewrite <- E at 1. apply fl_monotone.
  apply num_le_Fin in L.
  rewrite <- (Qplus_0_r q). now apply Qplus_le_compat.
Qed.

End SearchLimit.

(** X18.  For a requested count between 1 and 10, the number of results
    [handleWebSearch] asks the search engine for lies between the
    requested count and 10: it is 10 when content is wanted and domains
    are given, and the requested count itself when neither is.  This holds
    however the arithmetic rounds, as long as rounding is monotone and the
    requested count is itself a double. *)
Theorem searchLimit_bounds
    (fl : Q -> number)
    (fl_monotone : forall p q, (p <= q)%Q -> num_le (fl p) (fl q) = true)
    (q : Q) (Hdouble : fl q = Fin q) (Hlow : (1 <= q)%Q) (Hhigh : (q <= 10)%Q)
    (includeContent : bool) (domains : option (list jsstring)) :
  num_le (Fin q) (searchLimit fl (Fin q) includeContent domains) = true
  /\ num_le (searchLimit fl (Fin q) includeContent domains) (of_Z 10) = true
  /\ (includeContent = true -> hasDomains domains = true ->
      searchLimit fl (Fin q) includeContent domains = of_Z 10)
  /\ (includeContent = false -> hasDomains domains = false ->
      searchLimit fl (Fin q) includeContent domains = Fin q).
Proof.
  assert (Q0 : (0 <= q)%Q) by (eapply Qle_trans; [|exact Hlow]; discriminate).
  assert (M2 : num_le (Fin q)
                 (num_add fl (num_mul fl (Fin q) (of_Z 2)) (of_Z 2)) = true).
  { apply num_add_grows; auto; [discriminate|].
    apply num_mul_grows; auto. discriminate. }
  assert (M3 : num_le (Fin q) (num_mul fl (Fin q) (of_Z 3)) = true).
  { apply num_mul_grows; auto. discriminate. }
  unfold searchLimit. destruct includeContent, (hasDomains domains).
  - split; [now apply num_le_Fin|]. split; [reflexivity|].
    split; [reflexivity|discriminate].
  - destruct (Math_min_10 q _ Hhigh M2) as [A B].
    split; [exact A|]. split; [exact B|]. split; discriminate.
  - destruct (Math_min_10 q _ Hhigh M3) as [A B].
    split; [exact A|]. split; [exact B|]. split; discriminate.
  - split; [apply num_le_Fin, Qle_refl|]. split; [now apply num_le_Fin|].
    split; [discriminate|reflexivity].
Qed.

Lemma searchLimit_bounds_witness :
  (forall p q, (p <= q)%Q -> num_le (Basic.fl p) (Basic.fl q) = true)
  /\ Basic.fl 3 = Fin 3
  /\ num_le (Fin 3) (searchLimit Basic.fl (Fin 3) true None) = true
  /\ num_le (searchLimit Basic.fl (Fin 3) true None) (of_Z 10) = true.
Proof.
  assert (M : forall p q, (p <= q)%Q -> num_le (Basic.fl p) (Basic.fl q) = true)
    by (intros p q H; now apply num_le_Fin).
  split; [exact M|]. split; [reflexivity|].
  destruct (searchLimit_bounds Basic.fl M 3 eq_refl
              ltac:(discriminate) ltac:(discriminate) true None)
    as [L [H _]].
  split; [exact L | exact H].
Defined.

Section HandlerProps.

Local Open Scope Q_scope.

Variable fl : Q -> number.
Variable toLowerCase : jsstring -> jsstring.
Variable parseURL : jsstring -> option URL.
Variable search : SearchOptions.t -> thrown + SearchResultWithMetadata.t.
Variable extractContentForResults :
  list SearchResult.t -> number -> thrown + list SearchResult.t.
Variable numberToString : number -> jsstring.
Variable searchTime : number.

Let handle :=
  handleWebSearch fl toLowerCase parseURL search extractContentForResults
    numberToString searchTime.
Let attempt :=
  handleWebSearch_try fl toLowerCase parseURL search extractContentForResults
    numberToString searchTime.

Lemma slice0_prefix {A} (a : list A) (stop : number) : prefixOf (slice0 a stop) a.
Proof.
  unfold slice0.
  match goal with |- prefixOf (firstn ?k a) a => exists (skipn k a) end.
  now rewrite firstn_skipn.
Qed.

Lemma slice0_bound {A} (a : list A) (stop : number) (n : nat) :
  num_le (of_Z 0) stop = true -> num_le stop (of_nat n) = true ->
  (List.length (slice0 a stop) <= n)%nat.
Proof.
  intros P L. unfold slice0. rewrite length_firstn.
  destruct stop as [| | |q]; try discriminate. cbn [ToIntegerOrInfinity].
  apply num_le_Fin in P, L.
  pose proof (Qtrunc_le_nat q n L) as B.
  rewrite (Qtrunc_nonneg q P) in *.
  assert (0 <= Qfloor q)%Z.
  { change 0%Z with (Qfloor (inject_Z 0)). now apply Qfloor_resp_le. }
  destruct (Z.ltb_spec (Qfloor q) 0); lia.
Qed.

Lemma attempt_total_results input out :
  attempt input = inr out ->
  WebSearchToolOutput.total_results out
  = of_nat (List.length (WebSearchToolOutput.results out))
  /\ WebSearchToolOutput.query out = HandlerInput.query input.
Proof.
  unfold attempt, handleWebSearch_try.
  destruct (search _) as [e|resp]; [discriminate|].
  match goal with |- context [if ?c then extractContentForResults ?a ?b else ?d] =>
    destruct (if c then extractContentForResults a b else d) as [e|enhanced]
  end; [discriminate|].
  intros E. injection E as <-. split; reflexivity.
Qed.

Lemma handle_inr input out : handle input = inr out -> attempt input = inr out.
Proof.
  unfold handle, handleWebSearch. fold (attempt input).
  destruct (attempt input) as [[m|]|o]; congruence.
Qed.

Lemma handle_inl input message :
  handle input = inl message ->
  prefixOf (str "Web search failed: ") message.
Proof.
  unfold handle, handleWebSearch. fold (attempt input).
  destruct (attempt input) as [[m|]|o]; intros E; try discriminate;
    injection E as <-; eexists; reflexivity.
Qed.

Lemma handle_without_content input out :
  HandlerInput.includeContent input = Some false ->
  handle input = inr out ->
  exists options found,
    search options = inr found
    /\ SearchOptions.query options = HandlerInput.query input
    /\ SearchOptions.domains options = HandlerInput.domains input
    /\ WebSearchToolOutput.results out
       = slice0 (SearchResultWithMetadata.results found)
           (match HandlerInput.limit input with
            | Some n => n
            | None => of_Z 5
            end).
Proof.
  intros C H. apply handle_inr in H. revert H.
  unfold attempt, handleWebSearch_try. rewrite C.
  match goal with |- context [search ?o] =>
    exists o; destruct (search o) as [e|found]; [discriminate|]
  end.
  exists found. injection H as <-. repeat split.
Qed.

End HandlerProps.

Section RouteProps.

Local Open Scope Q_scope.

Variable fl : Q -> number.
Variable toLowerCase : jsstring -> jsstring.
Variable parseURL : jsstring -> option URL.
Variable search : SearchOptions.t -> thrown + SearchResultWithMetadata.t.
Variable extractContentForResults :
  list SearchResult.t -> number -> thrown + list SearchResult.t.
Variable numberToString : number -> jsstring.
Variable searchTime : number.

(** The handler of the route is [handleWebSearch], called on what the
    route validated. *)
Variable handler : WebSearchToolInput.t -> jsstring + WebSearchToolOutput.t.
Hypothesis handler_is_handleWebSearch :
  forall args input,
    typedInput args = Some input ->
    handler args
    = handleWebSearch fl toLowerCase parseURL search extractContentForResults
        numberToString searchTime input.

Lemma validateSearch_includeContent (body : Body.t) args :
  validateSearch toLowerCase body = Valid args ->
  WebSearchToolInput.includeContent args
  = validateIncludeContent toLowerCase
      (withDefault (VBool true) (Body.includeContent body)).
Proof.
  unfold validateSearch, bind.
  destruct (validateRequiredString _ _); [discriminate|].
  destruct (validateLimit _); [discriminate|].
  destruct (validateMaxContentLength _); [discriminate|].
  destruct (validateDomains _); [discriminate|].
  intros E. injection E as <-. reflexivity.
Qed.

(** How /api/search comes to each of its answers. *)
Lemma apiSearch_answer (body : Body.t) :
  match apiSearch toLowerCase handler body with
  | Status400 m => validateSearch toLowerCase body = BadRequest m
  | Status500 m =>
      exists args message,
        validateSearch toLowerCase body = Valid args
        /\ handler args = inl message
        /\ m = errorMessage (ThrownError message)
  | Status200 resp =>
      exists args out,
        validateSearch toLowerCase body = Valid args
        /\ handler args = inr out
        /\ SearchResponse.query resp = WebSearchToolOutput.query out
        /\ SearchResponse.total_results resp
           = WebSearchToolOutput.total_results out
        /\ SearchResponse.results resp
           = List.map
               (formatSearchResult (WebSearchToolInput.maxContentLength args))
               (WebSearchToolOutput.results out)
  end.
Proof.
  unfold apiSearch.
  destruct (validateSearch toLowerCase body) as [m|args]; [reflexivity|].
  destruct (handler args) as [m|out] eqn:H.
  - exists args, m. auto.
  - exists args, out. repeat split; auto.
Qed.

Lemma validated_input (body : Body.t) args :
  validateSearch toLowerCase body = Valid args ->
  exists q b,
    1 <= q /\ q <= 10
    /\ parseIfString (requestedLimit body) = VNumber (Fin q)
    /\ WebSearchToolInput.includeContent args = VBool b
    /\ typedInput args
       = Some {| HandlerInput.query := WebSearchToolInput.query args;
                 HandlerInput.limit := Some (Fin q);
                 HandlerInput.includeContent := Some b;
                 HandlerInput.domains := WebSearchToolInput.domains args |}.
Proof.
  intros H. pose proof (validateSearch_limit toLowerCase body args H) as L.
  apply validateLimit_Valid in L as [q [L [Q1 [Q2 P]]]];
    [|apply requestedLimit_defined].
  apply validateSearch_Valid in H as [_ [_ [_ [[b C] _]]]].
  exists q, b. repeat split; auto. now apply typedInput_Some.
Qed.

End RouteProps.

(** X19.  When a request to /api/search turns content off, the answer holds
    at most as many results as the request asked for, and so never more
    than 10. *)
Theorem apiSearch_without_content_at_most_limit
    (fl : Q -> number) (toLowerCase : jsstring -> jsstring)
    (parseURL : jsstring -> option URL)
    (search : SearchOptions.t -> thrown + SearchResultWithMetadata.t)
    (extractContentForResults :
       list SearchResult.t -> number -> thrown + list SearchResult.t)
    (numberToString : number -> jsstring) (searchTime : number)
    (handler : WebSearchToolInput.t -> jsstring + WebSearchToolOutput.t)
    (Hhandler :
       forall args input,
         typedInput args = Some input ->
         handler args
         = handleWebSearch fl toLowerCase parseURL search
             extractContentForResults numberToString searchTime input)
    (body : Body.t)
    (Hoff : validateIncludeContent toLowerCase
              (withDefault (VBool true) (Body.includeContent body))
            = VBool false) :
  match apiSearch toLowerCase handler body with
  | Status200 resp =>
      exists q,
        parseIfString (requestedLimit body) = VNumber (Fin q)
        /\ (forall n, (q <= inject_Z (Z.of_nat n))%Q ->
                      List.length (SearchResponse.results resp) <= n)
        /\ List.length (SearchResponse.results resp) <= 10
  | _ => True
  end.
Proof.
  pose proof (apiSearch_answer toLowerCase handler body) as A.
  destruct (apiSearch toLowerCase handler body) as [| |resp]; auto.
  destruct A as [args [out [V [H [_ [_ R]]]]]].
  destruct (validated_input toLowerCase body args V) as [q [b [Q1 [Q2 [P [C T]]]]]].
  rewrite (validateSearch_includeContent toLowerCase body args V), Hoff in C.
  injection C as <-.
  rewrite (Hhandler args _ T) in H.
  apply handle_without_content in H as [options [found [_ [_ [_ S]]]]];
    [|reflexivity].
  cbn [HandlerInput.limit] in S.
  assert (B : forall n, (q <= inject_Z (Z.of_nat n))%Q ->
                        List.length (SearchResponse.results resp) <= n).
  { intros n L. rewrite R, length_map, S. apply slice0_bound.
    - apply num_le_Fin. eapply Qle_trans; [|exact Q1]. discriminate.
    - now apply num_le_Fin. }
  exists q. split; [exact P|]. split; [exact B|]. now apply (B 10).
Qed.

Lemma handleValidated_is_handleWebSearch args input :
  typedInput args = Some input ->
  Basic.handleValidated args
  = handleWebSearch Basic.fl Basic.toLowerCase Basic.parseURL Basic.search
      Basic.extractContentForResults Basic.numberToString (of_Z 12) input.
Proof. intros H. unfold Basic.handleValidated. now rewrite H. Qed.

Lemma apiSearch_without_content_at_most_limit_witness :
  validateIncludeContent Basic.toLowerCase
    (withDefault (VBool true) (VString (str "false"))) = VBool false
  /\ exists resp,
       apiSearch Basic.toLowerCase Basic.handleValidated
         {| Body.query := VString (str "cats");
            Body.limit := VNumber (of_Z 1);
            Body.includeContent := VString (str "false");
            Body.maxContentLength := VUndefined;
            Body.domains := VUndefined;
            Body.url := VUndefined |} = Status200 resp
       /\ List.length (SearchResponse.results resp) <= 1.
Proof.
  split; [reflexivity|].
  pose proof (apiSearch_without_content_at_most_limit
                Basic.fl Basic.toLowerCase Basic.parseURL Basic.search
                Basic.extractContentForResults Basic.numberToString (of_Z 12)
                Basic.handleValidated
                handleValidated_is_handleWebSearch
                {| Body.query := VString (str "cats");
                   Body.limit := VNumber (of_Z 1);
                   Body.includeContent := VString (str "false");
                   Body.maxContentLength := VUndefined;
                   Body.domains := VUndefined;
                   Body.url := VUndefined |} eq_refl) as W.
  match type of W with
  | match ?a with _ => _ end => destruct a as [| |resp] eqn:E
  end; try discriminate E.
  exists resp. split; [reflexivity|].
  destruct W as [q [P [B _]]]. injection P as <-. apply (B 1%nat).
  apply Qle_refl.
Defined.

(** X20.  [handleWebSearch] fails only with a message that starts with
    "Web search failed: ": when the search engine throws an [Error] the
    message continues with the engine's message, and when it throws
    anything else with "Unknown error".  When it returns, [total_results]
    is the number of results returned and [query] the query it was
    given. *)
Theorem handleWebSearch_outcomes
    (fl : Q -> number) (toLowerCase : jsstring -> jsstring)
    (parseURL : jsstring -> option URL)
    (search : SearchOptions.t -> thrown + SearchResultWithMetadata.t)
    (extractContentForResults :
       list SearchResult.t -> number -> thrown + list SearchResult.t)
    (numberToString : number -> jsstring) (searchTime : number)
    (input : HandlerInput.t) :
  match handleWebSearch fl toLowerCase parseURL search extractContentForResults
          numberToString searchTime input with
  | inl message => prefixOf (str "Web search failed: ") message
  | inr out =>
      WebSearchToolOutput.total_results out
      = of_nat (List.length (WebSearchToolOutput.results out))
      /\ WebSearchToolOutput.query out = HandlerInput.query input
  end
  /\ (forall m,
         (forall options, search options = inl (ThrownError m)) ->
         handleWebSearch fl toLowerCase parseURL search extractContentForResults
           numberToString searchTime input
         = inl (str "Web search failed: " ++ m))
  /\ ((forall options, search options = inl ThrownOther) ->
      handleWebSearch fl toLowerCase parseURL search extractContentForResults
        numberToString searchTime input
      = inl (str "Web search failed: Unknown error")).
Proof.
  split; [|split].
  - destruct (handleWebSearch _ _ _ _ _ _ _ input) as [message|out] eqn:H.
    + now apply handle_inl in H.
    + apply handle_inr in H. now apply attempt_total_results in H.
  - intros m S. unfold handleWebSearch, handleWebSearch_try. now rewrite S.
  - intros S. unfold handleWebSearch, handleWebSearch_try. now rewrite S.
Qed.

(** X21.  With [handleWebSearch] behind it, /api/search answers 200 with
    the query of the request and a [total_results] that is the number of
    result records in the answer, and answers 500 only with a message that
    starts with "Web search failed: ". *)
Theorem apiSearch_answers
    (fl : Q -> number) (toLowerCase : jsstring -> jsstring)
    (parseURL : jsstring -> option URL)
    (search : SearchOptions.t -> thrown + SearchResultWithMetadata.t)
    (extractContentForResults :
       list SearchResult.t -> number -> thrown + list SearchResult.t)
    (numberToString : number -> jsstring) (searchTime : number)
    (handler : WebSearchToolInput.t -> jsstring + WebSearchToolOutput.t)
    (Hhandler :
       forall args input,
         typedInput args = Some input ->
         handler args
         = handleWebSearch fl toLowerCase parseURL search
             extractContentForResults numberToString searchTime input)
    (body : Body.t) :
  match apiSearch toLowerCase handler body with
  | Status200 resp =>
      Body.query body = VString (SearchResponse.query resp)
      /\ SearchResponse.total_results resp
         = of_nat (List.length (SearchResponse.results resp))
  | Status500 message => prefixOf (str "Web search failed: ") message
  | Status400 _ => True
  end.
Proof.
  pose proof (apiSearch_answer toLowerCase handler body) as A.
  destruct (apiSearch toLowerCase handler body) as [|message|resp]; auto.
  - destruct A as [args [thrownMessage [V [H ->]]]].
    destruct (validated_input toLowerCase body args V) as [q [b [_ [_ [_ [_ T]]]]]].
    rewrite (Hhandler args _ T) in H. apply handle_inl in H.
    destruct H as [rest ->]. exists rest. reflexivity.
  - destruct A as [args [out [V [H [Q [N R]]]]]].
    destruct (validated_input toLowerCase body args V) as [q [b [_ [_ [_ [_ T]]]]]].
    rewrite (Hhandler args _ T) in H.
    apply handle_inr, attempt_total_results in H as [H1 H2].
    cbn [HandlerInput.query] in H2.
    apply validateSearch_Valid in V as [V _].
    rewrite Q, N, R, length_map, H1, H2. auto.
Qed.

Lemma apiSearch_answers_witness :
  exists resp,
    apiSearch Basic.toLowerCase Basic.handleValidated
      (Basic.request (VNumber (of_Z 3)) VUndefined) = Status200 resp
    /\ SearchResponse.total_results resp
       = of_nat (List.length (SearchResponse.results resp)).
Proof.
  pose proof (apiSearch_answers
                Basic.fl Basic.toLowerCase Basic.parseURL Basic.search
                Basic.extractContentForResults Basic.numberToString (of_Z 12)
                Basic.handleValidated handleValidated_is_handleWebSearch
                (Basic.request (VNumber (of_Z 3)) VUndefined)) as W.
  match type of W with
  | match ?a with _ => _ end => destruct a as [| |resp] eqn:E
  end; try discriminate E.
  exists resp. split; [reflexivity|]. apply W.
Defined.

(** X22.  /api/content answers 400 "url is required and must be a string"
    when [url] is absent, empty or not a string, and 400 "url must be a
    valid URL" when it is a non-empty string that does not parse, whatever
    else the request holds and without a call to the extractor; it answers
    200 only for a [url] that parses, and then returns that URL and, as
    the title, its host name followed by its path. *)
Theorem apiContent_url_checks
    (parseURL : jsstring -> option URL)
    (extractContent : ContentExtractionOptions.t -> thrown + jsstring)
    (body : Body.t) :
  ((forall s, Body.url body = VString s -> s = []) ->
   apiContent parseURL extractContent body
   = Status400 (str "url is required and must be a string"))
  /\ (forall s, Body.url body = VString s -> s <> [] -> parseURL s = None ->
                apiContent parseURL extractContent body
                = Status400 (str "url must be a valid URL"))
  /\ (forall resp,
         apiContent parseURL extractContent body = Status200 resp ->
         exists s urlObj,
           Body.url body = VString s /\ s <> [] /\ parseURL s = Some urlObj
           /\ ContentResponse.url resp = s
           /\ ContentResponse.title resp = hostname urlObj ++ pathname urlObj).
Proof.
  unfold apiContent, validateContent, bind, validateRequiredString.
  split; [|split].
  - intros H. destruct (Body.url body) as [| | | |s| |]; try reflexivity.
    now rewrite (H s eq_refl).
  - intros s -> N P. destruct s as [|c s]; [congruence|].
    cbn [str_truthy]. now rewrite P.
  - intros resp. destruct (Body.url body) as [| | | |s| |]; try discriminate.
    destruct s as [|c s]; [discriminate|]. cbn [str_truthy].
    destruct (parseURL (c :: s)) as [u|] eqn:P; [|discriminate].
    destruct (validateMaxContentLength _) as [|m]; [discriminate|].
    cbn [ContentExtractionOptions.url ContentExtractionOptions.maxContentLength].
    destruct (extractContent _) as [|content]; [discriminate|].
    rewrite P. intros E. injection E as <-.
    exists (c :: s), u. repeat split; auto. discriminate.
Qed.

(** X23.  A URL that [validateUrl] accepts passes the URL checks of
    /api/content: for a request with that (non-empty) [url], the only 400
    the route can answer is the one about [maxContentLength]. *)
Theorem validateUrl_passes_content_checks
    (parseURL : jsstring -> option URL)
    (extractContent : ContentExtractionOptions.t -> thrown + jsstring)
    (body : Body.t) (url : jsstring)
    (Hvalid : validateUrl parseURL url = true)
    (Hurl : Body.url body = VString url)
    (Hnonempty : url <> []) :
  forall message,
    apiContent parseURL extractContent body = Status400 message ->
    message = str "maxContentLength must be a non-negative number".
Proof.
  intros message. unfold apiContent, validateContent, bind.
  rewrite Hurl. unfold validateRequiredString.
  destruct url as [|c url]; [congruence|]. cbn [str_truthy].
  unfold validateUrl in Hvalid.
  destruct (parseURL (c :: url)) as [u|] eqn:P; [|discriminate].
  destruct (validateMaxContentLength (Body.maxContentLength body)) as [m|m] eqn:V.
  - intros E. injection E as <-. revert V. unfold validateMaxContentLength.
    destruct (Body.maxContentLength body); try discriminate;
      cbn [parseIfString];
      repeat match goal with
             | |- context [match ?n with NaN => _ | _ => _ end] => destruct n
             | |- context [if ?c then _ else _] => destruct c
             end; congruence.
  - cbn [ContentExtractionOptions.url ContentExtractionOptions.maxContentLength].
    destruct (extractContent _); [discriminate|]. rewrite P. discriminate.
Qed.

Lemma validateUrl_passes_content_checks_witness :
  validateUrl Basic.parseURL (str "https://x.com/report") = true
  /\ str "https://x.com/report" <> []
  /\ forall message,
       apiContent Basic.parseURL Basic.extractContent
         (Basic.request VUndefined (VNumber (of_Z (-1)))) = Status400 message ->
       message = str "maxContentLength must be a non-negative number".
Proof.
  split; [reflexivity|]. split; [discriminate|].
  apply (validateUrl_passes_content_checks Basic.parseURL Basic.extractContent
           (Basic.request VUndefined (VNumber (of_Z (-1))))
           (str "https://x.com/report") eq_refl eq_refl).
  discriminate.
Defined.


(** X24.  /api/search/summaries asks the search engine for exactly the
    requested count, a number between 1 and 10, with the query of the
    request; a 200 answer lists the engine's results one for one, in
    order, each with its title, URL, description and timestamp; a 500
    answer carries the message of what the engine threw when that is an
    [Error] with a non-empty message, and "An unexpected error occurred"
    otherwise. *)
Theorem apiSummaries_answers
    (searchSummaries :
       jsstring -> value -> option (list jsstring) ->
       thrown + list SearchResult.t)
    (body : Body.t) :
  match apiSummaries searchSummaries body with
  | Status200 items =>
      exists query q domains results,
        searchSummaries query (VNumber (Fin q)) domains = inr results
        /\ (1 <= q)%Q /\ (q <= 10)%Q
        /\ Body.query body = VString query
        /\ parseIfString (requestedLimit body) = VNumber (Fin q)
        /\ items
           = List.map (fun item => (SearchResult.title item,
                                    SearchResult.url item,
                                    SearchResult.description item,
                                    SearchResult.timestamp item)) results
  | Status500 message =>
      exists query q domains err,
        searchSummaries query (VNumber (Fin q)) domains = inl err
        /\ (1 <= q)%Q /\ (q <= 10)%Q
        /\ Body.query body = VString query
        /\ parseIfString (requestedLimit body) = VNumber (Fin q)
        /\ (forall m, err = ThrownError m -> m <> [] -> message = m)
        /\ (err = ThrownError [] \/ err = ThrownOther ->
            message = str "An unexpected error occurred")
  | Status400 message => validateSummaries body = BadRequest message
  end.
Proof.
  unfold apiSummaries.
  destruct (validateSummaries body) as [m|[[query l] doms]] eqn:V;
    [reflexivity|].
  pose proof (validateSummaries_limit body query l doms V) as L.
  apply validateLimit_Valid in L as [q [-> [Q1 [Q2 P]]]];
    [|apply requestedLimit_defined].
  assert (B : Body.query body = VString query).
  { revert V. unfold validateSummaries, bind.
    destruct (validateRequiredString _ _) as [|s] eqn:R; [discriminate|].
    destruct (validateLimit _); [discriminate|].
    destruct (validateDomains _); [discriminate|].
    intros E. injection E as <- _ _.
    now apply validateRequiredString_Valid in R. }
  destruct (searchSummaries query (VNumber (Fin q)) doms) as [err|results] eqn:S.
  - exists query, q, doms, err. repeat split; auto.
    + intros m -> N. destruct m; [congruence|reflexivity].
    + intros [->| ->]; reflexivity.
  - exists query, q, doms, results. repeat split; auto.
Qed.


(* ================================================================== *)
(** * Truncation to maxContentLength *)
(* ================================================================== *)

Section Truncation.

Local Open Scope Q_scope.

(** An integer limit [j] above 0 is above 0 as a number, below the length
    of every longer content, and its integer part is [j]. *)
Lemma integer_limit (m : number) (j : nat) :
  num_eq m (of_nat j) = true -> (0 < j)%nat ->
  num_gt m (of_Z 0) = true
  /\ (forall len, (j < len)%nat -> num_gt (of_nat len) m = true)
  /\ forall q, m = Fin q -> Z.to_nat (Qfloor q) = j.
Proof.
  intros E P. destruct m as [| | |q]; try discriminate.
  split; [|split].
  - apply num_lt_Fin. cbn [num_eq of_nat of_Z] in E. apply Qeq_bool_iff in E.
    rewrite E. change 0 with (inject_Z 0). rewrite <- Zlt_Qlt. lia.
  - intros len L. apply num_lt_Fin.
    cbn [num_eq of_nat of_Z] in E. apply Qeq_bool_iff in E.
    rewrite E. rewrite <- Zlt_Qlt. lia.
  - intros q' H. injection H as <-. now apply floor_of_integer.
Qed.

Lemma validateContent_Valid (parseURL : jsstring -> option URL)
    (body : Body.t) options :
  validateContent parseURL body = Valid options ->
  validateMaxContentLength (Body.maxContentLength body)
  = Valid (ContentExtractionOptions.maxContentLength options).
Proof.
  unfold validateContent, bind.
  destruct (validateRequiredString _ _) as [|url]; [discriminate|].
  destruct (parseURL url); [|discriminate].
  destruct (validateMaxContentLength _) as [|m]; [discriminate|].
  intros E. injection E as <-. reflexivity.
Qed.

End Truncation.

(** C5.  When [maxContentLength] is supplied and positive (a whole number
    [j] of characters above 0) and a result's extracted full content is
    longer than it, the gateway, in its response formatting, returns
    exactly the first [j] characters of that content: for every result of
    a /api/search answer (whose extracted content, trimmed by the
    extractor, is never blank), with [contentTruncated] true and
    [originalLength] the uncut length, and for the /api/content answer. *)
Theorem truncation_to_maxContentLength
    (m : number) (j : nat)
    (Hinteger : num_eq m (of_nat j) = true) (Hpositive : 0 < j) :
  validateMaxContentLength (VNumber m) = Valid (Some m)
  /\ (forall r,
         j < List.length (SearchResult.fullContent r) -> hasFull r = true ->
         Formatted.fullContent (formatSearchResult (Some m) r)
         = Some (firstn j (SearchResult.fullContent r))
         /\ List.length (firstn j (SearchResult.fullContent r)) = j
         /\ Formatted.contentTruncated (formatSearchResult (Some m) r)
            = Some true
         /\ Formatted.originalLength (formatSearchResult (Some m) r)
            = Some (List.length (SearchResult.fullContent r)))
  /\ (forall toLowerCase handleWebSearch body,
         validateMaxContentLength (Body.maxContentLength body)
         = Valid (Some m) ->
         match apiSearch toLowerCase handleWebSearch body with
         | Status200 resp =>
             exists args out,
               handleWebSearch args = inr out
               /\ Forall2
                    (fun r f =>
                       j < List.length (SearchResult.fullContent r) ->
                       hasFull r = true ->
                       Formatted.fullContent f
                       = Some (firstn j (SearchResult.fullContent r)))
                    (WebSearchToolOutput.results out)
                    (SearchResponse.results resp)
         | _ => True
         end)
  /\ (forall url urlObj content,
         j < List.length content ->
         ContentResponse.content (contentResponse url urlObj (Some m) content)
         = firstn j content
         /\ List.length (firstn j content) = j)
  /\ (forall parseURL extractContent body,
         validateMaxContentLength (Body.maxContentLength body)
         = Valid (Some m) ->
         match apiContent parseURL extractContent body with
         | Status200 resp =>
             exists options content,
               extractContent options = inr content
               /\ (j < List.length content ->
                   ContentResponse.content resp = firstn j content)
         | _ => True
         end).
Proof.
  destruct (integer_limit m j Hinteger Hpositive) as [P [L F]].
  assert (Record : forall r,
             j < List.length (SearchResult.fullContent r) -> hasFull r = true ->
             Formatted.fullContent (formatSearchResult (Some m) r)
             = Some (firstn j (SearchResult.fullContent r))
             /\ List.length (firstn j (SearchResult.fullContent r)) = j
             /\ Formatted.contentTruncated (formatSearchResult (Some m) r)
                = Some true
             /\ Formatted.originalLength (formatSearchResult (Some m) r)
                = Some (List.length (SearchResult.fullContent r))).
  { intros r Long Full.
    destruct (truncation_by_caller m (SearchResult.fullContent r) P
                (L _ Long)) as [q [E [_ [S [_ [_ [Len _]]]]]]].
    rewrite (F q E) in *. destruct (S r eq_refl Full) as [S1 [S2 S3]]. auto. }
  assert (Content : forall url urlObj content,
             j < List.length content ->
             ContentResponse.content
               (contentResponse url urlObj (Some m) content)
             = firstn j content
             /\ List.length (firstn j content) = j).
  { intros url urlObj content Long.
    destruct (truncation_by_caller m content P (L _ Long))
      as [q [E [_ [_ [_ [C [Len _]]]]]]].
    rewrite (F q E) in *. destruct (C url urlObj) as [C1 _]. auto. }
  split; [|split; [exact Record|split; [|split; [exact Content|]]]].
  - destruct m as [| | |q]; try discriminate.
    apply validateMaxContentLength_positive. now apply num_lt_Fin in P.
  - intros toLowerCase handleWebSearch body V.
    destruct (apiSearch toLowerCase handleWebSearch body) as [| |resp] eqn:A;
      auto.
    pose proof A as A'. apply apiSearch_200 in A' as [args [out [V' [H ->]]]].
    apply validateSearch_Valid in V' as [_ [_ [_ [_ [M _]]]]].
    rewrite V in M. injection M as <-.
    exists args, out. split; [exact H|].
    apply Forall2_map_right. intros r Long Full.
    now destruct (Record r Long Full).
  - intros parseURL extractContent body V. unfold apiContent.
    destruct (validateContent parseURL body) as [|options] eqn:O; [exact I|].
    apply validateContent_Valid in O. rewrite V in O. injection O as O.
    destruct (extractContent options) as [|content] eqn:X; [exact I|].
    destruct (parseURL (ContentExtractionOptions.url options)); [|exact I].
    exists options, content. split; [exact X|]. intros Long.
    rewrite <- O. now destruct (Content (ContentExtractionOptions.url options)
                                  u content Long).
Qed.

Lemma truncation_to_maxContentLength_witness :
  num_eq (of_Z 2) (of_nat 2) = true
  /\ 0 < 2
  /\ Formatted.fullContent
       (formatSearchResult (Some (of_Z 2)) (Basic.page (str "abc")))
     = Some (str "ab")
  /\ ContentResponse.content
       (contentResponse (str "https://x.com/report")
          {| protocol := str "https:"; hostname := str "x.com";
             pathname := str "/report" |}
          (Some (of_Z 2)) (str "abc"))
     = str "ab".
Proof.
  assert (P : 0 < 2) by lia.
  destruct (truncation_to_maxContentLength (of_Z 2) 2 eq_refl P)
    as [_ [R [_ [C _]]]].
  split; [reflexivity|]. split; [exact P|]. split.
  - apply (R (Basic.page (str "abc"))); [cbn; lia|reflexivity].
  - apply C. cbn. lia.
Defined.
